(** * deepagents_cli.mcp_tools: MCP server integration of the Deep Agents CLI

    A shallow embedding of [libs/cli/deepagents_cli/mcp_tools.py] and the
    properties its specification states about it.

    The module loads server definitions from [.mcp.json], opens one
    transport and one protocol session per server inside an
    [AsyncExitStack], and republishes every remote capability as a
    [StructuredTool].  The embedding follows the file top to bottom:

    - [Py]: the Python values the module handles (parsed JSON, exceptions,
      results of calls that may raise) and the builtins it calls;
    - [Shlex]: [shlex.split] in its default POSIX mode;
    - [find_mcp_config_path], [extract_mcp_servers],
      [_format_call_tool_result], [_normalize_stdio_command];
    - [open_mcp_toolset]: the discovery pass as a state-and-exception
      monad over the tools, the errors, the exit stack and the trace of
      acquisitions and releases; the remote servers are a [World] of
      oracles, as the unit test replaces them by fakes. *)

From Stdlib Require Import Ascii String ZArith PrimFloat DecimalString Permutation.
From stdpp Require Import gmap strings list fin_maps sorting.

#[local] Open Scope string_scope.
#[local] Open Scope list_scope.
#[local] Open Scope nat_scope.
#[local] Open Scope stdpp_scope.
#[local] Set Warnings "-register-all".

(** ** Python values *)

Module Py.

(** What [json.loads] returns: [None], [bool], [int], [float], [str],
    [list] and [dict] with string keys.  A [dict] is a finite map: the
    module looks keys up, filters, and iterates in sorted key order. *)
Inductive json : Type :=
| JNull
| JBool (b : bool)
| JInt (n : Z)
| JFloat (f : float)
| JStr (s : string)
| JArr (l : list json)
| JObj (m : gmap string json).

(** [isinstance(v, dict)], [isinstance(v, str)], [isinstance(v, list)]. *)
Definition as_dict (v : json) : option (gmap string json) :=
  match v with JObj m => Some m | _ => None end.

Definition as_str (v : json) : option string :=
  match v with JStr s => Some s | _ => None end.

Definition as_list (v : json) : option (list json) :=
  match v with JArr l => Some l | _ => None end.

Definition is_dict (v : json) : bool :=
  match v with JObj _ => true | _ => false end.

(** [d.get(k)]: the value, or [None] when the key is absent. *)
Definition dict_get (d : gmap string json) (k : string) : json :=
  default JNull (d !! k).

(** [k in d]. *)
Definition dict_has (d : gmap string json) (k : string) : bool :=
  bool_decide (is_Some (d !! k)).

(** [type(v).__name__]. *)
Definition type_name (v : json) : string :=
  match v with
  | JNull => "NoneType"
  | JBool _ => "bool"
  | JInt _ => "int"
  | JFloat _ => "float"
  | JStr _ => "str"
  | JArr _ => "list"
  | JObj _ => "dict"
  end.

(** An exception object, as far as the module observes one:
    [type(e).__name__] and [str(e)]. *)
Record exn : Type := Exn { exn_type : string; exn_msg : string }.

Definition ValueError (msg : string) : exn := Exn "ValueError" msg.
Definition AttributeError (msg : string) : exn := Exn "AttributeError" msg.
Definition ToolException (msg : string) : exn := Exn "ToolException" msg.

(** The outcome of a call: a value, or a raised [Exception]. *)
Inductive result (A : Type) : Type :=
| Ok (a : A)
| Raise (e : exn).
Arguments Ok {A} a.
Arguments Raise {A} e.

Definition rbind {A B} (r : result A) (k : A → result B) : result B :=
  match r with Ok a => k a | Raise e => Raise e end.

(** Truthiness of a [str] and of a [list]: non-empty. *)
Definition str_truthy (s : string) : bool :=
  match s with EmptyString => false | String _ _ => true end.

Definition list_truthy {A} (l : list A) : bool :=
  match l with [] => false | _ :: _ => true end.

(** [a or b] on strings. *)
Definition str_or (a b : string) : string :=
  if str_truthy a then a else b.

(** [c.isspace()] for one character.  Characters are the code points
    0..255; Python's whitespace among them: TAB, LF, VT, FF, CR, the
    separators FS, GS, RS, US, SPACE, NEL (0x85) and NBSP (0xa0). *)
Definition isspace (c : ascii) : bool :=
  let n := nat_of_ascii c in
  (((9 <=? n) && (n <=? 13)) || ((28 <=? n) && (n <=? 32))
   || (n =? 133) || (n =? 160))%nat.

(** [any(ch.isspace() for ch in s)]. *)
Definition any_isspace (s : string) : bool :=
  existsb isspace (list_ascii_of_string s).

(** The string of the one character LF. *)
Definition newline : string := String (ascii_of_nat 10) EmptyString.

(** [sep.join(parts)]. *)
Definition join (sep : string) (parts : list string) : string :=
  String.concat sep parts.

(** The builtins the module calls on arbitrary objects.  Their
    definitions belong to the interpreter and to the [json] package;
    the module relies on [str] being the identity on a [str]. *)
Class Builtins : Type := {
  (** [str(v)] *)
  str : json → string;
  str_of_str : ∀ s, str (JStr s) = s;
  (** [json.dumps(v, indent=indent, ensure_ascii=ensure_ascii)] *)
  json_dumps : json → nat → bool → string;
}.

End Py.

Import Py.

(** ** shlex.split *)

Module Shlex.

(** The lexer state of [shlex.read_token]: [' '] between tokens, ['a']
    inside a word, a quote character inside a quoted part, and the
    escape character together with the state to return to
    ([escapedstate]: the word, or the double quote). *)
Inductive state : Type :=
| Between
| Word
| Quoted (q : ascii)
| Escaped (in_dquote : bool).

Definition squote : ascii := "'"%char.
Definition dquote : ascii := ascii_of_nat 34%nat.
Definition backslash : ascii := "\"%char.

(** [shlex.whitespace]: space, TAB, CR, LF. *)
Definition whitespace (c : ascii) : bool :=
  let n := nat_of_ascii c in
  ((n =? 32) || (n =? 9) || (n =? 13) || (n =? 10))%nat.

(** [shlex.quotes] in POSIX mode. *)
Definition quotes (c : ascii) : bool :=
  bool_decide (c = squote) || bool_decide (c = dquote).

(** [shlex.escape]. *)
Definition escape (c : ascii) : bool := bool_decide (c = backslash).

Definition snoc (token : string) (c : ascii) : string :=
  token +:+ String c EmptyString.

(** The tokens of [chars], read with [whitespace_split = True] and no
    commenters.  [token] and [quoted] are the fields of the same name;
    [done] holds the tokens already returned, last first. *)
Fixpoint read (chars : list ascii) (st : state) (token : string)
    (quoted : bool) (done : list string) : result (list string) :=
  match chars with
  | [] =>
      match st with
      | Between => Ok (rev done)
      | Word =>
          if str_truthy token || quoted then Ok (rev (token :: done))
          else Ok (rev done)
      | Quoted _ => Raise (ValueError "No closing quotation")
      | Escaped _ => Raise (ValueError "No escaped character")
      end
  | c :: rest =>
      match st with
      | Between =>
          if whitespace c then read rest Between token quoted done
          else if escape c then read rest (Escaped false) token quoted done
          else if quotes c then read rest (Quoted c) token quoted done
          else read rest Word (String c EmptyString) quoted done
      | Quoted q =>
          if bool_decide (c = q) then read rest Word token true done
          else if escape c && bool_decide (q = dquote)
          then read rest (Escaped true) token true done
          else read rest (Quoted q) (snoc token c) true done
      | Escaped in_dquote =>
          let token :=
            if in_dquote && negb (escape c) && negb (bool_decide (c = dquote))
            then snoc token backslash else token in
          read rest (if in_dquote then Quoted dquote else Word)
               (snoc token c) quoted done
      | Word =>
          if whitespace c then
            if str_truthy token || quoted
            then read rest Between EmptyString false (token :: done)
            else read rest Between token quoted done
          else if quotes c then read rest (Quoted c) token quoted done
          else if escape c then read rest (Escaped false) token quoted done
          else read rest Word (snoc token c) quoted done
      end
  end.

(** [shlex.split(s)]. *)
Definition split (s : string) : result (list string) :=
  read (list_ascii_of_string s) Between EmptyString false [].

End Shlex.

(** ** Locating the configuration file *)

(** A resolved absolute path, as its components from the root. *)
Definition path : Type := list string.

(** [str(p)] for a POSIX path. *)
Definition path_str (p : path) : string :=
  match p with
  | [] => "/"
  | _ => String.concat "" (map (λ c, "/" +:+ c) p)
  end.

(** [(start, *start.parents)]: the directory, then each ancestor up to
    the root. *)
Definition self_and_parents (start : path) : list path :=
  map (λ n, take n start) (rev (seq 0%nat (S (length start)))).

(** The loop of [find_mcp_config_path] over the candidate directories. *)
Fixpoint first_config (exists_ : path → bool) (dirs : list path) : option path :=
  match dirs with
  | [] => None
  | candidate_dir :: dirs =>
      let candidate := candidate_dir ++ [".mcp.json"] in
      if exists_ candidate then Some candidate else first_config exists_ dirs
  end.

Definition find_mcp_config_path (exists_ : path → bool) (start_path : path)
    : option path :=
  first_config exists_ (self_and_parents start_path).

(** ** Normalising the configuration document *)

Definition meta_keys : gset string := {[ "$schema"; "version"; "inputs"; "env" ]}.

(** [any(key in cfg for key in ("command", "url", "type"))]. *)
Definition _looks_like_server (cfg : gmap string json) : bool :=
  existsb (dict_has cfg) ["command"; "url"; "type"].

(** [all(p(v) for v in d.values())]. *)
Definition all_values (p : json → bool) (d : gmap string json) : bool :=
  bool_decide (map_Forall (λ _ v, p v = true) d).

(** [all(isinstance(v, dict) for v in candidate.values())]. *)
Definition all_dicts (candidate : gmap string json) : bool :=
  all_values is_dict candidate.

(** [all(_looks_like_server(v) for v in candidate.values()
         if isinstance(v, dict))]: values that are no [dict] are skipped
    by the generator. *)
Definition all_look_like_servers (candidate : gmap string json) : bool :=
  all_values
    (λ v, match as_dict v with
          | Some cfg => _looks_like_server cfg
          | None => true
          end)
    candidate.

(** The keys of a parsed document are strings, so [isinstance(k, str)]
    holds of every key and the candidates are the entries whose key is
    no metadata key. *)
Definition extract_mcp_servers (data : json) : gmap string json :=
  match data with
  | JObj data =>
      match dict_get data "mcpServers" with
      | JObj servers => servers
      | _ =>
          match dict_get data "servers" with
          | JObj servers => servers
          | _ =>
              let candidate : gmap string json :=
                filter (λ kv, kv.1 ∉ meta_keys) data in
              if bool_decide (candidate = ∅) || negb (all_dicts candidate) then ∅
              else if all_look_like_servers candidate then candidate
              else ∅
          end
      end
  | _ => ∅
  end.

(** ** Remote objects *)

(** A content block of a call outcome, through the attributes
    [_format_call_tool_result] probes: [getattr(block, "type", None)],
    [getattr(block, "text", "")], [block.model_dump_json()] when the block
    has that method, and [repr(block)]. *)
Record ContentBlock : Type := {
  block_type : option string;
  block_text : option string;
  block_model_dump_json : option string;
  block_repr : string;
}.

(** A call outcome, through [getattr(result, "structuredContent", None)],
    [getattr(result, "content", None)] and the truth value of
    [getattr(result, "isError", False)]. *)
Record CallToolResult : Type := {
  structuredContent : json;
  content : option (list ContentBlock);
  isError : bool;
}.

(** An entry of [session.list_tools().tools]. *)
Record McpTool : Type := {
  tool_name : string;
  tool_description : option string;
  tool_title : option string;
  tool_inputSchema : gmap string json;
}.

(** The transport a server is reached through, with the arguments the
    module passes to the client of that name ([StdioServerParameters] for
    [stdio_client]). *)
Inductive transport : Type :=
| stdio_client (command : string) (args : list string)
    (env : option (gmap string string)) (cwd : string)
| sse_client (url : string) (headers : option (gmap string json))
| streamable_http_client (url : string).

(** The remote end met while connecting one server: what entering the
    transport and the [ClientSession] does, and what the session
    answers. *)
Record Server : Type := {
  open_transport : transport → result unit;
  open_session : result unit;
  initialize : result unit;
  list_tools : result (list McpTool);
  call_tool : json → gmap string json → result CallToolResult;
}.

(** Everything outside the module: the file system, the configuration
    file as [json.loads(config_path.read_text())] finds it, and the
    servers by the name under which they are configured. *)
Record World : Type := {
  path_exists : path → bool;
  load_config : path → result json;
  server : string → Server;
}.

(** The defaults [_call_mcp_tool] is defined with: the session (of the
    server of that name) and the capability's own name. *)
Record Coroutine : Type := {
  _session : string;
  _mcp_tool_name : string;
}.

(** What [StructuredTool.from_function] is given. *)
Record StructuredTool : Type := {
  name : string;
  description : string;
  args_schema : gmap string json;
  metadata : gmap string string;
  coroutine : Coroutine;
}.

Record McpToolset : Type := {
  tools : list StructuredTool;
  config_path : option path;
  errors : list string;
}.

(** Context managers entered on the exit stack, and what happens to
    them. *)
Inductive resource : Type :=
| Transport (server_name : string) (t : transport)
| Session (server_name : string).

Inductive event : Type :=
| Acquire (r : resource)
| Release (r : resource).

(** A request that reached a session: [session.call_tool(name, arguments)]. *)
Record Call : Type := {
  call_session : string;
  call_name : json;
  call_arguments : gmap string json;
}.

Global Instance result_ret : MRet result := @Ok.
Global Instance result_bind : MBind result := λ A B k r, rbind r k.

Section Functions.

Context `{!Builtins}.

(** ** Normalising a call outcome *)

(** The body of the loop over [content]: what one block appends to
    [parts].  A text is a [str], which [str] leaves as it is; a block
    typed ["text"] without a text appends the default [""]. *)
Definition block_part (block : ContentBlock) : string :=
  if bool_decide (block_type block = Some "text")
  then default "" (block_text block)
  else match block_model_dump_json block with
       | Some dumped => dumped
       | None => block_repr block
       end.

Definition _format_call_tool_result (result : CallToolResult) : string :=
  match structuredContent result with
  | JNull =>
      match content result with
      | None | Some [] => ""
      | Some content =>
          let parts :=
            fold_left (λ parts block, parts ++ [block_part block]) content [] in
          join newline (filter (λ p, str_truthy p = true) parts)
      end
  | structured => json_dumps structured 2 false
  end.

(** ** Normalising a stdio command *)

Definition _normalize_stdio_command (raw_command raw_args : json)
    : result (string * list string) :=
  let command := default "" (as_str raw_command) in
  let args := default [] (as_list raw_args) in
  let args := map str args in
  if str_truthy command && list_truthy args then Ok (command, args)
  else if str_truthy command && negb (list_truthy args) && any_isspace command
  then
    split ← Shlex.split command;
    match split with
    | exe :: rest => Ok (exe, rest)
    | [] => Ok (command, args)
    end
  else Ok (command, args).

(** ** Invoking a tool *)

(** [_call_mcp_tool] called with the named arguments [named].  The
    function is declared with the keyword-only parameters [_session] and
    [_mcp_tool_name] before [**kwargs]: a named argument of either name
    binds that parameter, every other one goes to [kwargs].  A
    [_session] supplied by the caller is a plain value, which has no
    [call_tool].  The second component lists the requests sent to
    sessions. *)
Definition _call_mcp_tool (w : World) (defaults : Coroutine)
    (named : gmap string json) : result string * list Call :=
  let mcp_tool_name :=
    default (JStr (_mcp_tool_name defaults)) (named !! "_mcp_tool_name") in
  let kwargs := delete "_session" (delete "_mcp_tool_name" named) in
  match named !! "_session" with
  | Some v =>
      (Raise (AttributeError
         ("'" +:+ type_name v +:+ "' object has no attribute 'call_tool'")), [])
  | None =>
      let session := _session defaults in
      let sent := [ {| call_session := session; call_name := mcp_tool_name;
                       call_arguments := kwargs |} ] in
      match call_tool (server w session) mcp_tool_name kwargs with
      | Raise e => (Raise e, sent)
      | Ok result =>
          if isError result then
            let msg :=
              str_or (_format_call_tool_result result) "MCP tool call failed" in
            (Raise (ToolException msg), sent)
          else (Ok (_format_call_tool_result result), sent)
      end
  end.

(** [await tool.ainvoke(input)]: a [StructuredTool] whose [args_schema]
    is a JSON-schema [dict] passes the input mapping on as the
    coroutine's keyword arguments. *)
Definition ainvoke (w : World) (tool : StructuredTool)
    (input : gmap string json) : result string * list Call :=
  _call_mcp_tool w (coroutine tool) input.

End Functions.

(** ** The discovery pass *)

(** The variables of [open_mcp_toolset] that change while the servers are
    connected: [tools], [errors], the context managers registered on
    [stack] (last entered first), and the trace of what was acquired and
    released so far. *)
Record Pass : Type := {
  pass_tools : list StructuredTool;
  pass_errors : list string;
  pass_stack : list resource;
  pass_trace : list event;
}.

Definition pass_init : Pass :=
  {| pass_tools := []; pass_errors := []; pass_stack := []; pass_trace := [] |}.

(** [tools.append(tool)] and [errors.append(msg)]. *)
Definition append_tool (tool : StructuredTool) (st : Pass) : Pass :=
  {| pass_tools := pass_tools st ++ [tool]; pass_errors := pass_errors st;
     pass_stack := pass_stack st; pass_trace := pass_trace st |}.

Definition append_error (msg : string) (st : Pass) : Pass :=
  {| pass_tools := pass_tools st; pass_errors := pass_errors st ++ [msg];
     pass_stack := pass_stack st; pass_trace := pass_trace st |}.

(** A context manager was entered and its exit registered. *)
Definition register (r : resource) (st : Pass) : Pass :=
  {| pass_tools := pass_tools st; pass_errors := pass_errors st;
     pass_stack := r :: pass_stack st;
     pass_trace := pass_trace st ++ [Acquire r] |}.

(** The body of the [try]: a computation over the pass that may raise.
    What it did to the pass before raising stays done. *)
Definition Try (A : Type) : Type := Pass → Pass * result A.

Global Instance Try_ret : MRet Try := λ A a st, (st, Ok a).
Global Instance Try_bind : MBind Try := λ A B k m st,
  match m st with
  | (st', Ok a) => k a st'
  | (st', Raise e) => (st', Raise e)
  end.

Definition lift {A} (r : result A) : Try A := λ st, (st, r).

Definition modify (f : Pass → Pass) : Try unit := λ st, (f st, Ok tt).

(** [await stack.enter_async_context(cm)]: [cm.__aenter__()] runs; when
    it returns, the exit of [cm] is pushed on the stack, and when it
    raises, nothing is pushed. *)
Definition enter_async_context (r : resource) (aenter : result unit) : Try unit :=
  _ ← lift aenter; modify (register r).

(** [for x in l: body(x)]. *)
Fixpoint for_each {A} (l : list A) (body : A → Try unit) : Try unit :=
  match l with
  | [] => mret tt
  | x :: l => _ ← body x; for_each l body
  end.

(** Closing the exit stack: every registered exit runs, last entered
    first. *)
Definition aclose (stack : list resource) : list event := map Release stack.

(** [sorted(servers.items(), key=lambda kv: kv[0])]. *)
Definition key_le (a b : string * json) : Prop := String.leb a.1 b.1 = true.

Global Instance key_le_dec : RelDecision key_le :=
  λ a b, decide (String.leb a.1 b.1 = true).

Definition sorted_items (servers : gmap string json) : list (string * json) :=
  merge_sort key_le (map_to_list servers).

Section Discovery.

Context `{!Builtins}.

(** The transport a server definition selects, with its arguments: the
    [if "command" in cfg / elif "url" in cfg / else] of the [try] block
    up to the client handed to [stack.enter_async_context].  The keys of
    [env] and [headers] are strings already, so that [str(k)] is [k];
    [x or None] and [x if headers_dict else None] turn an empty mapping
    into [None]. *)
Definition select_transport (start_path : path) (cfg : gmap string json)
    : result transport :=
  let server_type := dict_get cfg "type" in
  let env := dict_get cfg "env" in
  let env_dict := as_dict env in
  if dict_has cfg "command" then
    '(command, args) ←
      _normalize_stdio_command (dict_get cfg "command") (dict_get cfg "args");
    if negb (str_truthy command)
    then Raise (ValueError "Missing 'command' for stdio MCP server")
    else
      let env_typed : gmap string string := str <$> default ∅ env_dict in
      Ok (stdio_client command args
            (if bool_decide (env_typed = ∅) then None else Some env_typed)
            (path_str start_path))
  else if dict_has cfg "url" then
    match dict_get cfg "url" with
    | JStr (String _ _ as url) =>
        let headers := dict_get cfg "headers" in
        let headers_dict := as_dict headers in
        let headers_typed :=
          match headers_dict with
          | Some h => if bool_decide (h = ∅) then None else Some h
          | None => None
          end in
        match server_type with
        | JStr "sse" => Ok (sse_client url headers_typed)
        | _ => Ok (streamable_http_client url)
        end
    | _ => Raise (ValueError "Missing 'url' for HTTP/SSE MCP server")
    end
  else Raise (ValueError "Expected either 'command' or 'url' in MCP server config").

(** The [StructuredTool] built for one listed capability. *)
Definition make_tool (server_name : string) (cfg : gmap string json)
    (mcp_tool : McpTool) : StructuredTool :=
  let tool_name_ := server_name +:+ "__" +:+ tool_name mcp_tool in
  let description :=
    str_or (default "" (tool_description mcp_tool))
           (str_or (default "" (tool_title mcp_tool)) "") in
  let description :=
    if str_truthy description
    then "[MCP:" +:+ server_name +:+ "] " +:+ description
    else "[MCP:" +:+ server_name +:+ "]" in
  let input_schema :=
    if bool_decide (tool_inputSchema mcp_tool = ∅)
    then {[ "type" := JStr "object"; "properties" := JObj ∅ ]}
    else tool_inputSchema mcp_tool in
  {| name := tool_name_;
     description := description;
     args_schema := input_schema;
     metadata :=
       {[ "source" := "mcp";
          "mcp_server" := server_name;
          "mcp_tool" := tool_name mcp_tool;
          "mcp_transport" := if dict_has cfg "command" then "stdio" else "http" ]};
     coroutine :=
       {| _session := server_name; _mcp_tool_name := tool_name mcp_tool |} |}.

(** The [try] block for one server. *)
Definition connect (w : World) (start_path : path) (server_name : string)
    (cfg : gmap string json) : Try unit :=
  let remote := server w server_name in
  client ← lift (select_transport start_path cfg);
  _ ← enter_async_context (Transport server_name client)
        (open_transport remote client);
  _ ← enter_async_context (Session server_name) (open_session remote);
  _ ← lift (initialize remote);
  listed ← lift (list_tools remote);
  for_each listed (λ mcp_tool,
    modify (append_tool (make_tool server_name cfg mcp_tool))).

Definition config_error (server_name : string) : string :=
  "MCP server '" +:+ server_name +:+ "' config must be an object.".

Definition connect_error (server_name : string) (e : exn) : string :=
  "Failed to connect MCP server '" +:+ server_name +:+ "': "
    +:+ exn_type e +:+ ": " +:+ exn_msg e.

(** One iteration of the loop over the sorted servers. *)
Definition process_server (w : World) (start_path : path) (st : Pass)
    (kv : string * json) : Pass :=
  let '(server_name, cfg_obj) := kv in
  match cfg_obj with
  | JObj cfg =>
      match connect w start_path server_name cfg st with
      | (st, Ok _) => st
      | (st, Raise e) => append_error (connect_error server_name e) st
      end
  | _ => append_error (config_error server_name) st
  end.

Definition read_error (config_path : path) (e : exn) : string :=
  "Failed to read " +:+ path_str config_path +:+ ": "
    +:+ exn_type e +:+ ": " +:+ exn_msg e.

Definition no_servers_error (config_path : path) : string :=
  "No MCP servers configured in " +:+ path_str config_path +:+ ". "
    +:+ "Expected a top-level 'mcpServers'/'servers' object "
    +:+ "or a simplified server map.".

(** [open_mcp_toolset] up to its [yield]: the toolset handed to the
    caller, the exit stack that is open around the [yield] (empty on
    the three early returns, which yield before any stack exists) and
    the trace so far. *)
Definition open_mcp_toolset (w : World) (start_path : path)
    : McpToolset * list resource * list event :=
  match find_mcp_config_path (path_exists w) start_path with
  | None => ({| tools := []; config_path := None; errors := [] |}, [], [])
  | Some config_path =>
      match load_config w config_path with
      | Raise e =>
          ({| tools := []; config_path := Some config_path;
              errors := [read_error config_path e] |}, [], [])
      | Ok data =>
          let servers := extract_mcp_servers data in
          if bool_decide (servers = ∅) then
            ({| tools := []; config_path := Some config_path;
                errors := [no_servers_error config_path] |}, [], [])
          else
            let st :=
              fold_left (process_server w start_path) (sorted_items servers)
                        pass_init in
            ({| tools := pass_tools st; config_path := Some config_path;
                errors := pass_errors st |}, pass_stack st, pass_trace st)
      end
  end.

(** [async with open_mcp_toolset(start_path) as toolset: body(toolset)].
    Whether [body] returns or raises, control leaves the generator
    through the [async with] of the exit stack, which closes it. *)
Definition with_mcp_toolset {A} (w : World) (start_path : path)
    (body : McpToolset → result A) : result A * list event :=
  let '(toolset, stack, trace) := open_mcp_toolset w start_path in
  (body toolset, trace ++ aclose stack).

End Discovery.

(** ** Definitions used to state the properties *)

(** A stand-in for the builtins under which the closed examples run.
    None of them converts anything but a [str], on which [str] is the
    identity, or reaches [json.dumps]. *)
Definition str_of_str_only (v : json) : string := default "" (as_str v).

Definition examples_builtins : Builtins :=
  {| str := str_of_str_only;
     str_of_str := λ s, eq_refl;
     json_dumps := λ _ _ _, "" |}.


(** [v] is a mapping holding one of the keys that mark a server
    definition. *)
Definition server_like (v : json) : Prop :=
  ∃ cfg, v = JObj cfg ∧
    (is_Some (cfg !! "command") ∨ is_Some (cfg !! "url") ∨ is_Some (cfg !! "type")).

(** The field [k] of [d] holds a mapping. *)
Definition holds_mapping (d : gmap string json) (k : string) : Prop :=
  ∃ m, d !! k = Some (JObj m).

(** No argument list is given: [args] is absent (or [null]), not a list,
    or empty. *)
Definition no_args (raw_args : json) : Prop :=
  default [] (as_list raw_args) = [].

(** A pass [st] continued by what [d] records: tools, errors and trace
    are appended, and the context managers of [d] come on top of the
    stack. *)
Definition pass_app (st d : Pass) : Pass :=
  {| pass_tools := pass_tools st ++ pass_tools d;
     pass_errors := pass_errors st ++ pass_errors d;
     pass_stack := pass_stack d ++ pass_stack st;
     pass_trace := pass_trace st ++ pass_trace d |}.

(** The pass of [tools.append] for each of [new], and nothing else. *)
Definition with_tools (new : list StructuredTool) : Pass :=
  {| pass_tools := new; pass_errors := []; pass_stack := []; pass_trace := [] |}.

Section Outcomes.

Context `{!Builtins}.
Variables (w : World) (start_path : path).

(** Connection, handshake and discovery all go through for the server
    [server_name] defined by [cfg], and [listed] is what it lists. *)
Inductive connects (server_name : string) (cfg : gmap string json)
    : transport → list McpTool → Prop :=
| connects_intro client listed :
    select_transport start_path cfg = Ok client →
    open_transport (server w server_name) client = Ok tt →
    open_session (server w server_name) = Ok tt →
    initialize (server w server_name) = Ok tt →
    list_tools (server w server_name) = Ok listed →
    connects server_name cfg client listed.

(** The attempt for the server [server_name] raises [e]: while its
    definition is turned into a transport, while the transport or the
    session is entered, in the handshake, or while the capabilities are
    listed. *)
Inductive fails (server_name : string) (cfg : gmap string json)
    : exn → Prop :=
| fails_definition e :
    select_transport start_path cfg = Raise e →
    fails server_name cfg e
| fails_transport client e :
    select_transport start_path cfg = Ok client →
    open_transport (server w server_name) client = Raise e →
    fails server_name cfg e
| fails_session client e :
    select_transport start_path cfg = Ok client →
    open_transport (server w server_name) client = Ok tt →
    open_session (server w server_name) = Raise e →
    fails server_name cfg e
| fails_handshake client e :
    select_transport start_path cfg = Ok client →
    open_transport (server w server_name) client = Ok tt →
    open_session (server w server_name) = Ok tt →
    initialize (server w server_name) = Raise e →
    fails server_name cfg e
| fails_listing client e :
    select_transport start_path cfg = Ok client →
    open_transport (server w server_name) client = Ok tt →
    open_session (server w server_name) = Ok tt →
    initialize (server w server_name) = Ok tt →
    list_tools (server w server_name) = Raise e →
    fails server_name cfg e.

(** The transport and the session that open for one configured server,
    in the order in which they open: the transport when the definition
    selects one and entering it succeeds, then the session when
    entering it succeeds.  Later steps play no part. *)
Definition opened_by (kv : string * json) : list resource :=
  match kv.2 with
  | JObj cfg =>
      match select_transport start_path cfg with
      | Ok client =>
          match open_transport (server w kv.1) client with
          | Ok _ =>
              Transport kv.1 client ::
              match open_session (server w kv.1) with
              | Ok _ => [Session kv.1]
              | Raise _ => []
              end
          | Raise _ => []
          end
      | Raise _ => []
      end
  | _ => []
  end.

(** What one configured server adds to a pass. *)
Definition contribution (kv : string * json) : Pass :=
  process_server w start_path pass_init kv.

End Outcomes.

(** The context managers that open during a discovery pass, in the order
    in which they open. *)
Definition opened `{!Builtins} (w : World) (start_path : path) : list resource :=
  match find_mcp_config_path (path_exists w) start_path with
  | Some config_path =>
      match load_config w config_path with
      | Ok data =>
          flat_map (opened_by w start_path)
                   (sorted_items (extract_mcp_servers data))
      | Raise _ => []
      end
  | None => []
  end.

(** The server whose context manager [r] is. *)
Definition resource_server (r : resource) : string :=
  match r with Transport server_name _ | Session server_name => server_name end.

(** [s] is a prefix of [t]. *)
Definition is_prefix (s t : string) : Prop := ∃ rest, t = s +:+ rest.

(** ** Fakes for the closed examples

    In the manner of the unit test: a configuration file in the start
    directory, and servers that answer without any process or network. *)

Definition text_block (text : string) : ContentBlock :=
  {| block_type := Some "text"; block_text := Some text;
     block_model_dump_json := None; block_repr := "" |}.

(** A server that connects and lists [listed]; every call answers
    ["ok"]. *)
Definition fake_server (listed : list McpTool) : Server :=
  {| open_transport := λ _, Ok tt;
     open_session := Ok tt;
     initialize := Ok tt;
     list_tools := Ok listed;
     call_tool := λ _ _,
       Ok {| structuredContent := JNull; content := Some [text_block "ok"];
             isError := false |} |}.

(** A server whose transport cannot be opened. *)
Definition unreachable_server : Server :=
  {| open_transport := λ _, Raise (Exn "ConnectionError" "refused");
     open_session := Ok tt;
     initialize := Ok tt;
     list_tools := Ok [];
     call_tool := λ _ _, Raise (Exn "ConnectionError" "refused") |}.

Definition fake_tool (tool_name : string) : McpTool :=
  {| tool_name := tool_name; tool_description := Some "Search something";
     tool_title := None; tool_inputSchema := ∅ |}.

(** The world in which [/project/.mcp.json] parses to [config] and the
    servers are [servers]. *)
Definition fake_world (config : json) (servers : string → Server) : World :=
  {| path_exists := λ p, bool_decide (p = ["project"; ".mcp.json"]);
     load_config := λ _, Ok config;
     server := servers |}.

Definition stdio_cfg : gmap string json :=
  {[ "command" := JStr "npx";
     "args" := JArr [JStr "-y"; JStr "mcp-remote"; JStr "https://example.com"] ]}.

Definition sse_cfg : gmap string json :=
  {[ "url" := JStr "https://example.com/sse"; "type" := JStr "sse" ]}.

Definition stdio_definition : json := JObj stdio_cfg.

Definition sse_definition : json := JObj sse_cfg.

(** Two servers: ["broken"] cannot be reached, ["tavily"] lists
    ["search"]. *)
Definition one_broken_config : json :=
  JObj {[ "mcpServers" :=
            JObj {[ "broken" := stdio_definition;
                    "tavily" := stdio_definition ]} ]}.

Definition one_broken_world : World :=
  fake_world one_broken_config
    (λ server_name,
       if bool_decide (server_name = "broken") then unreachable_server
       else fake_server [fake_tool "search"]).

(** Two servers: ["a"] lists the capability ["b__c"], and ["a__b"]
    lists ["c"]. *)
Definition colliding_world : World :=
  fake_world
    (JObj {[ "mcpServers" :=
               JObj {[ "a" := stdio_definition; "a__b" := stdio_definition ]} ]})
    (λ server_name,
       if bool_decide (server_name = "a") then fake_server [fake_tool "b__c"]
       else fake_server [fake_tool "c"]).

(** One server reached over server-sent events. *)
Definition sse_world : World :=
  fake_world
    (JObj {[ "mcpServers" := JObj {[ "events" := sse_definition ]} ]})
    (λ _, fake_server [fake_tool "search"]).

(** Two definitions of a streaming-HTTP server that differ in their
    headers only. *)
Definition http_cfg : gmap string json :=
  {[ "url" := JStr "https://example.com/mcp" ]}.

Definition http_cfg_with_headers : gmap string json :=
  {[ "url" := JStr "https://example.com/mcp";
     "headers" := JObj {[ "Authorization" := JStr "Bearer token" ]} ]}.

(** The configuration of the unit test: one stdio server ["tavily"]
    that lists ["search"]. *)
Definition test_world : World :=
  fake_world
    (JObj {[ "mcpServers" := JObj {[ "tavily" := stdio_definition ]} ]})
    (λ _, fake_server [fake_tool "search"]).

(** ** Definitions for the further properties *)

(** The text of an outcome that has content blocks only. *)
Definition blocks_text `{!Builtins} (blocks : list ContentBlock) : string :=
  _format_call_tool_result
    {| structuredContent := JNull; content := Some blocks; isError := false |}.

(** A character that the lexer takes literally: no whitespace, no quote,
    no backslash. *)
Definition plain_char (c : ascii) : bool :=
  negb (Shlex.whitespace c) && negb (Shlex.quotes c) && negb (Shlex.escape c).

(** A non-empty word of such characters. *)
Definition plain_word (word : string) : Prop :=
  word ≠ "" ∧ forallb plain_char (list_ascii_of_string word) = true.

(** A stdio definition that also carries the fields of a URL server. *)
Definition stdio_cfg_with_url : gmap string json :=
  <["url" := JStr "https://example.com/mcp"]>
    (<["type" := JStr "sse"]>
       (<["headers" := JObj {[ "Authorization" := JStr "Bearer token" ]}]>
          stdio_cfg)).

(** A stdio definition whose command has an unbalanced quote. *)
Definition unbalanced_cfg : gmap string json :=
  {[ "command" := JStr "sh -c 'oops" ]}.

(** A server-sent-events definition with headers. *)
Definition sse_cfg_with_headers : gmap string json :=
  <["headers" := JObj {[ "Authorization" := JStr "Bearer token" ]}]> sse_cfg.

(** The server a tool belongs to, as its metadata records it. *)
Definition server_of (t : StructuredTool) : string :=
  default "" (metadata t !! "mcp_server").

(** The tool [t1] belongs to a server whose name is not after the name
    of the server of [t2]. *)
Definition server_order (t1 t2 : StructuredTool) : Prop :=
  String.leb (server_of t1) (server_of t2) = true.

(** The configuration of [colliding_world] and of [test_world]. *)
Definition colliding_config : json :=
  JObj {[ "mcpServers" :=
            JObj {[ "a" := stdio_definition; "a__b" := stdio_definition ]} ]}.

Definition test_config : json :=
  JObj {[ "mcpServers" := JObj {[ "tavily" := stdio_definition ]} ]}.

(** Two servers, one of them defined by a string instead of a mapping. *)
Definition malformed_config : json :=
  JObj {[ "mcpServers" :=
            JObj {[ "tavily" := stdio_definition; "typo" := JStr "npx" ]} ]}.

Definition malformed_world : World :=
  fake_world malformed_config (λ _, fake_server [fake_tool "search"]).

(** * tests/integration_tests/conftest.py

    The collection hook of the integration tests: which tests are marked
    as skipped, given what the host is configured for. *)

(** What the hook reads of the host: the environment variables,
    [importlib.util.find_spec(name) is not None], and whether
    [~/.modal.toml] exists. *)
Record Host : Type := {
  environ : gmap string string;
  find_spec : string → bool;
  modal_toml_exists : bool;
}.

(** [bool(os.environ.get(key))]: the variable is set and not empty. *)
Definition env_truthy (h : Host) (key : string) : bool :=
  str_truthy (default "" (environ h !! key)).

Definition _has_daytona_config (h : Host) : bool :=
  env_truthy h "DAYTONA_API_KEY".

Definition _has_runloop_config (h : Host) : bool :=
  env_truthy h "RUNLOOP_API_KEY".

Definition _has_langsmith_config (h : Host) : bool :=
  env_truthy h "LANGSMITH_API_KEY".

Definition _has_modal_config (h : Host) : bool :=
  if env_truthy h "MODAL_TOKEN_ID" && env_truthy h "MODAL_TOKEN_SECRET"
  then true
  else modal_toml_exists h.

Definition _has_dependency (h : Host) (module_name : string) : bool :=
  find_spec h module_name.

(** [needle in hay] for strings. *)
Fixpoint contains (needle hay : string) : bool :=
  String.prefix needle hay ||
  match hay with
  | EmptyString => false
  | String _ hay => contains needle hay
  end.

(** [pytest.mark.skip(reason=...)]. *)
Inductive marker : Type :=
| skip (reason : string).

Definition skip_daytona : marker :=
  skip "Daytona integration tests require DAYTONA_API_KEY and the 'daytona' package".

Definition skip_runloop : marker :=
  skip "Runloop integration tests require RUNLOOP_API_KEY and the 'runloop_api_client' package".

Definition skip_modal : marker :=
  skip "Modal integration tests require Modal auth and the 'modal' package".

Definition skip_langsmith : marker :=
  skip "LangSmith integration tests require LANGSMITH_API_KEY and the 'langsmith' package".

Definition daytona_ready (h : Host) : bool :=
  _has_daytona_config h && _has_dependency h "daytona".

Definition runloop_ready (h : Host) : bool :=
  _has_runloop_config h && _has_dependency h "runloop_api_client".

Definition modal_ready (h : Host) : bool :=
  _has_modal_config h && _has_dependency h "modal".

Definition langsmith_ready (h : Host) : bool :=
  _has_langsmith_config h && _has_dependency h "langsmith".

(** The body of the loop over [items]: the markers added to the item of
    that node id, in the order of the calls of [add_marker]. *)
Definition item_markers (h : Host) (nodeid : string) : list marker :=
  if contains "test_sandbox_operations.py" nodeid && negb (daytona_ready h)
  then [skip_daytona]
  else
    (if contains "TestDaytonaIntegration" nodeid && negb (daytona_ready h)
     then [skip_daytona] else [])
    ++ (if contains "TestRunLoopIntegration" nodeid && negb (runloop_ready h)
        then [skip_runloop] else [])
    ++ (if contains "TestModalIntegration" nodeid && negb (modal_ready h)
        then [skip_modal] else [])
    ++ (if contains "TestLangSmithIntegration" nodeid && negb (langsmith_ready h)
        then [skip_langsmith] else []).

(** [pytest_collection_modifyitems(config, items)]: every item with the
    markers it is given. *)
Definition pytest_collection_modifyitems (h : Host) (items : list string)
    : list (string * list marker) :=
  map (λ nodeid, (nodeid, item_markers h nodeid)) items.

(** * Properties *)

(** ** The configuration normaliser *)

Lemma all_values_spec (p : json → bool) (d : gmap string json) :
  all_values p d = true ↔ map_Forall (λ _ v, p v = true) d.
Proof. unfold all_values. apply bool_decide_eq_true. Qed.

Lemma is_dict_spec (v : json) : is_dict v = true ↔ ∃ cfg, v = JObj cfg.
Proof.
  split.
  - destruct v; try discriminate. eauto.
  - intros [cfg ->]. reflexivity.
Qed.

Lemma dict_has_spec (d : gmap string json) (k : string) :
  dict_has d k = true ↔ is_Some (d !! k).
Proof. unfold dict_has. apply bool_decide_eq_true. Qed.

Lemma _looks_like_server_spec (cfg : gmap string json) :
  _looks_like_server cfg = true ↔
  is_Some (cfg !! "command") ∨ is_Some (cfg !! "url") ∨ is_Some (cfg !! "type").
Proof.
  unfold _looks_like_server. simpl.
  rewrite !orb_true_iff, !dict_has_spec. intuition discriminate.
Qed.

(** The two checks of the flattened shape together say that every
    candidate is a server-like mapping. *)
Lemma candidate_checks_spec (candidate : gmap string json) :
  all_dicts candidate && all_look_like_servers candidate = true ↔
  map_Forall (λ _ v, server_like v) candidate.
Proof.
  unfold all_dicts, all_look_like_servers.
  rewrite andb_true_iff, !all_values_spec. split.
  - intros [Hd Hs] k v Hk. specialize (Hd k v Hk). specialize (Hs k v Hk).
    simpl in *. apply is_dict_spec in Hd as [cfg ->]. simpl in Hs.
    exists cfg. split; [done|]. by apply _looks_like_server_spec.
  - intros H. split; intros k v Hk; destruct (H k v Hk) as (cfg & -> & Hc); simpl.
    + done.
    + by apply _looks_like_server_spec.
Qed.

Lemma dict_get_mapping (d : gmap string json) (k : string) :
  (∃ m, dict_get d k = JObj m) ↔ holds_mapping d k.
Proof.
  unfold dict_get, holds_mapping.
  destruct (d !! k) as [v|]; simpl; split; intros [m Hm];
    try discriminate; exists m; congruence.
Qed.

(** The candidates of the flattened shape: the entries of the document
    whose key is no metadata key. *)
Lemma candidate_lookup (d : gmap string json) (k : string) :
  filter (λ kv : string * json, kv.1 ∉ meta_keys) d !! k
  = if decide (k ∈ meta_keys) then None else d !! k.
Proof.
  rewrite map_lookup_filter. case_decide as Hk; destruct (d !! k); simpl; try done.
  - by rewrite option_guard_False by (simpl; tauto).
  - by rewrite option_guard_True.
Qed.

(** Without a mapping under either group key, the flattened shape
    decides. *)
Lemma extract_mcp_servers_flattened (d : gmap string json) :
  ¬ holds_mapping d "mcpServers" → ¬ holds_mapping d "servers" →
  extract_mcp_servers (JObj d)
  = let candidate : gmap string json :=
      filter (λ kv, kv.1 ∉ meta_keys) d in
    if bool_decide (candidate = ∅) || negb (all_dicts candidate) then ∅
    else if all_look_like_servers candidate then candidate else ∅.
Proof.
  intros Hn1 Hn2. unfold extract_mcp_servers.
  destruct (dict_get d "mcpServers") eqn:E1;
    [| | | | | |exfalso; apply Hn1, dict_get_mapping; eauto];
    (destruct (dict_get d "servers") eqn:E2;
       [| | | | | |exfalso; apply Hn2, dict_get_mapping; eauto];
       reflexivity).
Qed.


(** ** The result normaliser *)

Section Format.

Context `{!Builtins}.

(** The loop appends one part per block, in order. *)
Lemma parts_loop (blocks : list ContentBlock) (parts : list string) :
  fold_left (λ parts block, parts ++ [block_part block]) blocks parts
  = parts ++ map block_part blocks.
Proof.
  revert parts. induction blocks as [|block blocks IH]; intros parts; simpl.
  - by rewrite app_nil_r.
  - rewrite IH, <- app_assoc. reflexivity.
Qed.




End Format.

(** ** The stdio command normaliser *)

Section Normalize.

Context `{!Builtins}.



(** Without arguments a command with whitespace goes through
    [shlex.split], and a lexing error is the function's own. *)
Lemma _normalize_stdio_command_split (command : string) (raw_args : json) :
  no_args raw_args → any_isspace command = true →
  _normalize_stdio_command (JStr command) raw_args
  = split ← Shlex.split command;
    match split with
    | exe :: rest => Ok (exe, rest)
    | [] => Ok (command, [])
    end.
Proof.
  intros Hno Hsp. unfold _normalize_stdio_command, no_args in *.
  simpl. rewrite Hno, Hsp. simpl.
  destruct command as [|c command]; [discriminate|]. reflexivity.
Qed.


End Normalize.


(** ** Invoking a tool *)

Section Invoke.

Context `{!Builtins}.

(** Named arguments that avoid the two parameter names reach the
    owning session unchanged, under the capability's own name; the
    outcome's error flag decides between failing with the normalised
    text (or the fallback message when that text is empty) and
    returning the normalised text. *)
Lemma _call_mcp_tool_forwards (w : World) (defaults : Coroutine)
    (named : gmap string json) (result : CallToolResult) :
  named !! "_session" = None →
  named !! "_mcp_tool_name" = None →
  call_tool (server w (_session defaults)) (JStr (_mcp_tool_name defaults)) named
    = Ok result →
  _call_mcp_tool w defaults named =
    (let text := _format_call_tool_result result in
     if isError result
     then Raise (ToolException
                   (if decide (text = "") then "MCP tool call failed" else text))
     else Ok text,
     [ {| call_session := _session defaults;
          call_name := JStr (_mcp_tool_name defaults);
          call_arguments := named |} ]).
Proof.
  intros Hs Hn Hcall. unfold _call_mcp_tool.
  rewrite Hs, Hn. simpl.
  rewrite (delete_id named "_mcp_tool_name") by done.
  rewrite (delete_id named "_session") by done.
  rewrite Hcall. destruct (isError result); [|done].
  unfold str_or. by destruct (_format_call_tool_result result).
Qed.

(** An error outcome whose only content is the text ["boom"] makes the
    invocation fail with the message ["boom"]. *)
Lemma _call_mcp_tool_boom (w : World) (defaults : Coroutine)
    (named : gmap string json) :
  named !! "_session" = None →
  named !! "_mcp_tool_name" = None →
  call_tool (server w (_session defaults)) (JStr (_mcp_tool_name defaults)) named
    = Ok {| structuredContent := JNull;
            content := Some [ {| block_type := Some "text";
                                 block_text := Some "boom";
                                 block_model_dump_json := None;
                                 block_repr := "" |} ];
            isError := true |} →
  (_call_mcp_tool w defaults named).1 = Raise (ToolException "boom").
Proof.
  intros Hs Hn Hcall.
  by rewrite (_call_mcp_tool_forwards _ _ _ _ Hs Hn Hcall).
Qed.

(** C3, at the named arguments [{"_mcp_tool_name": "other", "q": "hello"}]
    given to the tool of the capability ["search"].  The argument
    [_mcp_tool_name] binds the parameter of that name instead of being
    forwarded: the session is asked for ["other"], with [{"q": "hello"}]
    alone, and not for ["search"] with the arguments as given. *)
Theorem _call_mcp_tool_parameter_capture (w : World) :
  let defaults := {| _session := "tavily"; _mcp_tool_name := "search" |} in
  let named : gmap string json :=
    {[ "_mcp_tool_name" := JStr "other"; "q" := JStr "hello" ]} in
  (_call_mcp_tool w defaults named).2
    = [ {| call_session := "tavily"; call_name := JStr "other";
           call_arguments := {[ "q" := JStr "hello" ]} |} ] ∧
  (_call_mcp_tool w defaults named).2
    ≠ [ {| call_session := "tavily"; call_name := JStr "search";
           call_arguments := named |} ].
Proof.
  intros defaults named.
  assert (Hsent : (_call_mcp_tool w defaults named).2
    = [ {| call_session := "tavily"; call_name := JStr "other";
           call_arguments := {[ "q" := JStr "hello" ]} |} ]).
  { unfold _call_mcp_tool.
    replace (named !! "_session") with (@None json) by reflexivity.
    replace (named !! "_mcp_tool_name") with (Some (JStr "other")) by reflexivity.
    replace (delete "_session" (delete "_mcp_tool_name" named))
      with ({[ "q" := JStr "hello" ]} : gmap string json) by reflexivity.
    simpl. destruct (call_tool _ _ _) as [result|e]; [|done].
    by destruct (isError result). }
  split; [done|]. rewrite Hsent. intros [=].
Qed.

(** A caller-supplied [_session] replaces the session: no request is
    sent at all and the invocation fails on the missing method. *)
Lemma _call_mcp_tool_session_capture (w : World) (defaults : Coroutine)
    (named : gmap string json) (v : json) :
  named !! "_session" = Some v →
  _call_mcp_tool w defaults named =
    (Raise (AttributeError
       ("'" +:+ type_name v +:+ "' object has no attribute 'call_tool'")), []).
Proof. intros Hs. unfold _call_mcp_tool. by rewrite Hs. Qed.

End Invoke.

(** ** The discovery pass *)

Lemma pass_app_init_l (d : Pass) : pass_app pass_init d = d.
Proof. destruct d. unfold pass_app; simpl. by rewrite app_nil_r. Qed.

Lemma pass_app_init_r (st : Pass) : pass_app st pass_init = st.
Proof. destruct st. unfold pass_app; simpl. by rewrite !app_nil_r. Qed.

Lemma pass_app_assoc (a b c : Pass) :
  pass_app (pass_app a b) c = pass_app a (pass_app b c).
Proof. unfold pass_app; simpl. by rewrite !app_assoc. Qed.

Lemma register_app (r : resource) (st : Pass) :
  register r st = pass_app st (register r pass_init).
Proof. unfold register, pass_app; simpl. by rewrite !app_nil_r. Qed.

Lemma append_error_app (msg : string) (st : Pass) :
  append_error msg st = pass_app st (append_error msg pass_init).
Proof. unfold append_error, pass_app; simpl. by rewrite !app_nil_r. Qed.

Lemma for_each_append_tool {A} (f : A → StructuredTool) (l : list A) (st : Pass) :
  for_each l (λ x, modify (append_tool (f x))) st
  = (pass_app st (with_tools (map f l)), Ok tt).
Proof.
  revert st. induction l as [|x l IH]; intros st; simpl.
  - unfold mret, Try_ret. f_equal. symmetry. apply pass_app_init_r.
  - unfold mbind, Try_bind, modify. rewrite IH. f_equal.
    unfold pass_app, append_tool; simpl. by rewrite <- !app_assoc, !app_nil_r.
Qed.

(** Closes an equation between two passes built from the primitives. *)
Ltac pass_eq :=
  unfold pass_app, append_error, append_tool, register, with_tools, pass_init;
  simpl; rewrite ?app_nil_r, <- ?app_assoc; reflexivity.

Section Pass.

Context `{!Builtins}.
Variables (w : World) (start_path : path).

(** The [try] block, step by step. *)
Lemma connect_run (server_name : string) (cfg : gmap string json) (st : Pass) :
  connect w start_path server_name cfg st =
  match select_transport start_path cfg with
  | Raise e => (st, Raise e)
  | Ok client =>
      match open_transport (server w server_name) client with
      | Raise e => (st, Raise e)
      | Ok _ =>
          let st := register (Transport server_name client) st in
          match open_session (server w server_name) with
          | Raise e => (st, Raise e)
          | Ok _ =>
              let st := register (Session server_name) st in
              match initialize (server w server_name) with
              | Raise e => (st, Raise e)
              | Ok _ =>
                  match list_tools (server w server_name) with
                  | Raise e => (st, Raise e)
                  | Ok listed =>
                      (pass_app st
                         (with_tools (map (make_tool server_name cfg) listed)),
                       Ok tt)
                  end
              end
          end
      end
  end.
Proof.
  unfold connect, enter_async_context, lift, modify, mbind, Try_bind.
  destruct (select_transport start_path cfg) as [client|e]; [|done].
  destruct (open_transport _ client) as [[]|e]; [|done].
  destruct (open_session _) as [[]|e]; [|done].
  destruct (initialize _) as [[]|e]; [|done].
  destruct (list_tools _) as [listed|e]; [|done].
  apply for_each_append_tool.
Qed.

(** One iteration only adds to the pass, and what it adds does not
    depend on what the earlier servers left in it. *)
Lemma process_server_frame (st : Pass) (kv : string * json) :
  process_server w start_path st kv = pass_app st (contribution w start_path kv).
Proof.
  destruct kv as [server_name cfg_obj]. unfold contribution.
  destruct cfg_obj as [| | | | | |cfg]; simpl; try apply append_error_app.
  rewrite !connect_run.
  destruct (select_transport start_path cfg) as [client|e]; [|pass_eq].
  destruct (open_transport _ client) as [[]|e]; [|pass_eq].
  destruct (open_session _) as [[]|e]; [|pass_eq].
  destruct (initialize _) as [[]|e]; [|pass_eq].
  destruct (list_tools _) as [listed|e]; pass_eq.
Qed.

Lemma servers_loop (l : list (string * json)) (st : Pass) :
  fold_left (process_server w start_path) l st
  = pass_app st (fold_left (process_server w start_path) l pass_init).
Proof.
  revert st. induction l as [|kv l IH]; intros st; simpl.
  - by rewrite pass_app_init_r.
  - rewrite IH, (IH (process_server w start_path pass_init kv)).
    by rewrite process_server_frame, pass_app_assoc.
Qed.

Lemma servers_loop_cons (kv : string * json) (l : list (string * json)) :
  fold_left (process_server w start_path) (kv :: l) pass_init
  = pass_app (contribution w start_path kv)
             (fold_left (process_server w start_path) l pass_init).
Proof. simpl. by rewrite servers_loop. Qed.

Lemma servers_loop_app (l1 l2 : list (string * json)) :
  fold_left (process_server w start_path) (l1 ++ l2) pass_init
  = pass_app (fold_left (process_server w start_path) l1 pass_init)
             (fold_left (process_server w start_path) l2 pass_init).
Proof. by rewrite fold_left_app, servers_loop. Qed.

(** The pass is the concatenation of the servers' contributions. *)
Lemma servers_loop_tools (l : list (string * json)) :
  pass_tools (fold_left (process_server w start_path) l pass_init)
  = flat_map (λ kv, pass_tools (contribution w start_path kv)) l.
Proof.
  induction l as [|kv l IH]; [done|].
  rewrite servers_loop_cons. simpl. by rewrite IH.
Qed.

Lemma servers_loop_errors (l : list (string * json)) :
  pass_errors (fold_left (process_server w start_path) l pass_init)
  = flat_map (λ kv, pass_errors (contribution w start_path kv)) l.
Proof.
  induction l as [|kv l IH]; [done|].
  rewrite servers_loop_cons. simpl. by rewrite IH.
Qed.

(** What a server contributes, by how its attempt ends. *)
Lemma contribution_not_object (server_name : string) (cfg_obj : json) :
  is_dict cfg_obj = false →
  contribution w start_path (server_name, cfg_obj)
  = append_error (config_error server_name) pass_init.
Proof. by destruct cfg_obj. Qed.

Lemma contribution_fails (server_name : string) (cfg : gmap string json) (e : exn) :
  fails w start_path server_name cfg e →
  pass_tools (contribution w start_path (server_name, JObj cfg)) = [] ∧
  pass_errors (contribution w start_path (server_name, JObj cfg))
  = [connect_error server_name e].
Proof.
  unfold contribution. simpl. rewrite connect_run.
  destruct 1 as [e Hs|client e Hs Ht|client e Hs Ht Hn|client e Hs Ht Hn Hi
                |client e Hs Ht Hn Hi Hl];
    rewrite Hs; try rewrite Ht; try (simpl; rewrite Hn);
    try rewrite Hi; try rewrite Hl; done.
Qed.

Lemma contribution_connects (server_name : string) (cfg : gmap string json)
    (client : transport) (listed : list McpTool) :
  connects w start_path server_name cfg client listed →
  contribution w start_path (server_name, JObj cfg)
  = {| pass_tools := map (make_tool server_name cfg) listed;
       pass_errors := [];
       pass_stack := [Session server_name; Transport server_name client];
       pass_trace := [Acquire (Transport server_name client);
                      Acquire (Session server_name)] |}.
Proof.
  destruct 1 as [client listed Hs Ht Hn Hi Hl].
  unfold contribution. simpl. rewrite connect_run.
  rewrite Hs, Ht. simpl. by rewrite Hn, Hi, Hl.
Qed.

(** An attempt either goes through or raises. *)
Lemma connects_or_fails (server_name : string) (cfg : gmap string json) :
  (∃ client listed, connects w start_path server_name cfg client listed) ∨
  (∃ e, fails w start_path server_name cfg e).
Proof.
  destruct (select_transport start_path cfg) as [client|e] eqn:Hs;
    [|right; eauto using fails_definition].
  destruct (open_transport (server w server_name) client) as [[]|e] eqn:Ht;
    [|right; eauto using fails_transport].
  destruct (open_session (server w server_name)) as [[]|e] eqn:Hn;
    [|right; eauto using fails_session].
  destruct (initialize (server w server_name)) as [[]|e] eqn:Hi;
    [|right; eauto using fails_handshake].
  destruct (list_tools (server w server_name)) as [listed|e] eqn:Hl;
    [|right; eauto using fails_listing].
  left. eauto using connects_intro.
Qed.

(** The exit stack holds exactly what was opened, last opened first,
    and the trace says so. *)
Lemma contribution_resources (kv : string * json) :
  pass_stack (contribution w start_path kv) = rev (opened_by w start_path kv) ∧
  pass_trace (contribution w start_path kv) = map Acquire (opened_by w start_path kv).
Proof.
  destruct kv as [server_name cfg_obj].
  unfold contribution, opened_by.
  destruct cfg_obj as [| | | | | |cfg]; simpl; try done.
  rewrite connect_run.
  destruct (select_transport start_path cfg) as [client|e]; [|done].
  destruct (open_transport _ client) as [[]|e]; [|done].
  destruct (open_session _) as [[]|e]; [|done].
  destruct (initialize _) as [[]|e]; [|done].
  destruct (list_tools _) as [listed|e]; done.
Qed.

Lemma servers_loop_resources (l : list (string * json)) :
  pass_stack (fold_left (process_server w start_path) l pass_init)
  = rev (flat_map (opened_by w start_path) l) ∧
  pass_trace (fold_left (process_server w start_path) l pass_init)
  = map Acquire (flat_map (opened_by w start_path) l).
Proof.
  induction l as [|kv l [IHs IHt]]; [done|].
  rewrite servers_loop_cons. simpl.
  destruct (contribution_resources kv) as [-> ->].
  rewrite IHs, IHt, rev_app_distr, map_app. done.
Qed.

End Pass.

(** ** The servers in processing order *)

Lemma sorted_items_perm (servers : gmap string json) :
  sorted_items servers ≡ₚ map_to_list servers.
Proof. apply merge_sort_Permutation. Qed.

Lemma elem_of_sorted_items (servers : gmap string json) (k : string) (v : json) :
  (k, v) ∈ sorted_items servers ↔ servers !! k = Some v.
Proof. rewrite sorted_items_perm. apply elem_of_map_to_list. Qed.

Lemma NoDup_sorted_items (servers : gmap string json) :
  NoDup (sorted_items servers).*1.
Proof. rewrite sorted_items_perm. apply NoDup_fst_map_to_list. Qed.


(** The servers are processed in the order of their names. *)
Lemma sorted_items_sorted (servers : gmap string json) :
  Sorted key_le (sorted_items servers).
Proof.
  assert (Total key_le) by (intros a b; apply String.leb_total).
  apply (Sorted_merge_sort key_le).
Qed.

(** ** The early returns *)

Section Early.

Context `{!Builtins}.

(** C7.  Without a configuration file the toolset has no tools, no
    configuration path and no errors.  With a file that cannot be read
    or parsed it has no tools and the one error that describes the
    failure.  With a parsed file that yields no servers it has no tools
    and the one error that names the expected shapes.  No context
    manager is entered in any of the three. *)
Theorem open_mcp_toolset_early_returns (w : World) (start_path : path) :
  (find_mcp_config_path (path_exists w) start_path = None →
     open_mcp_toolset w start_path
     = ({| tools := []; config_path := None; errors := [] |}, [], [])) ∧
  (∀ config_path e,
     find_mcp_config_path (path_exists w) start_path = Some config_path →
     load_config w config_path = Raise e →
     open_mcp_toolset w start_path
     = ({| tools := []; config_path := Some config_path;
           errors := [ "Failed to read " +:+ path_str config_path +:+ ": "
                         +:+ exn_type e +:+ ": " +:+ exn_msg e ] |}, [], [])) ∧
  (∀ config_path data,
     find_mcp_config_path (path_exists w) start_path = Some config_path →
     load_config w config_path = Ok data →
     extract_mcp_servers data = ∅ →
     open_mcp_toolset w start_path
     = ({| tools := []; config_path := Some config_path;
           errors := [ "No MCP servers configured in " +:+ path_str config_path
                         +:+ ". Expected a top-level 'mcpServers'/'servers' "
                         +:+ "object or a simplified server map." ] |},
        [], [])).
Proof.
  unfold open_mcp_toolset. split; [|split].
  - by intros ->.
  - by intros config_path e -> ->.
  - intros config_path data -> -> ->. by rewrite bool_decide_eq_true_2.
Qed.

(** When servers are configured, the toolset is what the loop over the
    sorted servers leaves. *)
Lemma open_mcp_toolset_servers (w : World) (start_path config_path : path)
    (data : json) :
  find_mcp_config_path (path_exists w) start_path = Some config_path →
  load_config w config_path = Ok data →
  extract_mcp_servers data ≠ ∅ →
  open_mcp_toolset w start_path
  = let st := fold_left (process_server w start_path)
                (sorted_items (extract_mcp_servers data)) pass_init in
    ({| tools := pass_tools st; config_path := Some config_path;
        errors := pass_errors st |}, pass_stack st, pass_trace st).
Proof.
  intros Hf Hl Hs. unfold open_mcp_toolset.
  by rewrite Hf, Hl, bool_decide_eq_false_2.
Qed.

End Early.

(** ** Selecting the transport *)

Section Select.

Context `{!Builtins}.

Lemma delete_eq_lookup (cfg1 cfg2 : gmap string json) (k k' : string) :
  delete k cfg1 = delete k cfg2 → k' ≠ k → cfg1 !! k' = cfg2 !! k'.
Proof.
  intros Hd Hne.
  rewrite <- (lookup_delete_ne cfg1 k k'), <- (lookup_delete_ne cfg2 k k') by done.
  by rewrite Hd.
Qed.

(** C10.  A definition reached by URL whose type is not ["sse"] selects
    the streaming-HTTP transport for its URL and nothing else: two such
    definitions that differ only in [headers] open the same transport
    with the same arguments. *)
Theorem streamable_http_ignores_headers (start_path : path)
    (cfg1 cfg2 : gmap string json) :
  delete "headers" cfg1 = delete "headers" cfg2 →
  cfg1 !! "command" = None →
  is_Some (cfg1 !! "url") →
  cfg1 !! "type" ≠ Some (JStr "sse") →
  select_transport start_path cfg1 = select_transport start_path cfg2 ∧
  ∀ client, select_transport start_path cfg1 = Ok client →
    ∃ url, cfg1 !! "url" = Some (JStr url) ∧ client = streamable_http_client url.
Proof.
  intros Hd Hc [u Hu] Ht.
  assert (Hc2 : cfg2 !! "command" = None)
    by (by rewrite <- (delete_eq_lookup _ _ _ _ Hd)).
  assert (Hu2 : cfg2 !! "url" = Some u)
    by (by rewrite <- (delete_eq_lookup _ _ _ _ Hd)).
  assert (Ht2 : cfg2 !! "type" = cfg1 !! "type")
    by (by rewrite <- (delete_eq_lookup _ _ _ _ Hd)).
  assert (Hsel : ∀ cfg : gmap string json,
    cfg !! "command" = None → cfg !! "url" = Some u →
    cfg !! "type" = cfg1 !! "type" →
    select_transport start_path cfg =
      match u with
      | JStr (String _ _ as url) => Ok (streamable_http_client url)
      | _ => Raise (ValueError "Missing 'url' for HTTP/SSE MCP server")
      end).
  { intros cfg Hcc Hcu Hct. unfold select_transport, dict_has, dict_get.
    rewrite Hcc, Hcu, Hct. simpl.
    destruct u as [| | | |[|c url]| |]; try reflexivity.
    destruct (cfg1 !! "type") as [[| | | |s| |]|]; simpl; try reflexivity.
    destruct (decide (s = "sse")) as [->|Hs]; [done|].
    repeat (destruct s as [|[[] [] [] [] [] [] [] []] s]; try reflexivity).
    done. }
  rewrite (Hsel cfg1), (Hsel cfg2) by done. split; [done|].
  intros client. destruct u as [| | | |[|c url]| |]; intros [=]. eauto.
Qed.

End Select.

(** The same server defined with and without an [Authorization] header:
    both definitions open the streaming-HTTP transport for the URL. *)
Lemma streamable_http_ignores_headers_witness :
  delete "headers" http_cfg_with_headers = delete "headers" http_cfg ∧
  @select_transport examples_builtins ["project"] http_cfg_with_headers
  = Ok (streamable_http_client "https://example.com/mcp") ∧
  @select_transport examples_builtins ["project"] http_cfg
  = Ok (streamable_http_client "https://example.com/mcp").
Proof.
  assert (Hd : delete "headers" http_cfg_with_headers = delete "headers" http_cfg)
    by reflexivity.
  destruct (@streamable_http_ignores_headers examples_builtins ["project"]
              http_cfg_with_headers http_cfg Hd eq_refl
              (ex_intro _ (JStr "https://example.com/mcp") eq_refl)
              ltac:(discriminate)) as [Heq _].
  split; [exact Hd|]. split; [reflexivity|]. rewrite <- Heq. reflexivity.
Defined.

(** ** Where the tools of a pass come from *)

Section Provenance.

Context `{!Builtins}.
Variables (w : World) (start_path : path).

(** A tool of a pass was built for a server that connected, from one
    of the capabilities it listed. *)
Lemma contribution_tools_inv (kv : string * json) (t : StructuredTool) :
  t ∈ pass_tools (contribution w start_path kv) →
  ∃ cfg client listed mcp_tool,
    kv.2 = JObj cfg ∧ connects w start_path kv.1 cfg client listed ∧
    mcp_tool ∈ listed ∧ t = make_tool kv.1 cfg mcp_tool.
Proof.
  destruct kv as [server_name cfg_obj].
  destruct cfg_obj as [| | | | | |cfg];
    try (rewrite contribution_not_object by done; simpl;
         intros Hin; by inversion Hin).
  cbn [fst snd].
  destruct (connects_or_fails w start_path server_name cfg)
    as [(client & listed & Hc)|[e Hf]].
  - rewrite (contribution_connects _ _ _ _ _ _ Hc). simpl.
    intros (mcp_tool & -> & Hin)%list_elem_of_fmap. eauto 10.
  - destruct (contribution_fails _ _ _ _ _ Hf) as [-> _].
    intros Hin; by inversion Hin.
Qed.

Lemma toolset_tools_inv (t : StructuredTool) :
  t ∈ tools (open_mcp_toolset w start_path).1.1 →
  ∃ config_path data server_name cfg client listed mcp_tool,
    find_mcp_config_path (path_exists w) start_path = Some config_path ∧
    load_config w config_path = Ok data ∧
    extract_mcp_servers data !! server_name = Some (JObj cfg) ∧
    connects w start_path server_name cfg client listed ∧
    mcp_tool ∈ listed ∧ t = make_tool server_name cfg mcp_tool.
Proof.
  unfold open_mcp_toolset.
  destruct (find_mcp_config_path _ _) as [config_path|] eqn:Hf;
    [|intros Hin; by inversion Hin].
  destruct (load_config w config_path) as [data|e] eqn:Hl;
    [|intros Hin; by inversion Hin].
  case_bool_decide; [intros Hin; by inversion Hin|]. simpl.
  rewrite servers_loop_tools, list_elem_of_In, in_flat_map.
  intros ([server_name cfg_obj] & Hkv%list_elem_of_In & Ht%list_elem_of_In).
  apply contribution_tools_inv in Ht
    as (cfg & client & listed & mcp_tool & Hcfg & Hc & Hin & ->).
  simpl in *. subst cfg_obj. apply elem_of_sorted_items in Hkv.
  exists config_path, data, server_name, cfg, client, listed, mcp_tool. done.
Qed.


(** The stdio transport is selected exactly for the definitions with a
    ["command"] key. *)
Lemma select_transport_kind (cfg : gmap string json) (client : transport) :
  select_transport start_path cfg = Ok client →
  dict_has cfg "command"
  = match client with stdio_client _ _ _ _ => true | _ => false end.
Proof.
  unfold select_transport. destruct (dict_has cfg "command").
  - destruct (_normalize_stdio_command _ _) as [[command args]|e]; [|done].
    simpl. destruct (negb _); [done|]. by intros [= <-].
  - destruct (dict_has cfg "url"); [|done].
    destruct (dict_get cfg "url") as [| | | |[|c url]| |]; try done.
    destruct (dict_get cfg "type") as [| | | |s| |]; try by intros [= <-].
    repeat (destruct s as [|[[] [] [] [] [] [] [] []] s]; try by intros [= <-]).
Qed.

(** C9 (as amended).  Every tool of a discovery pass records in its
    metadata ["stdio"] when its server was reached through the stdio
    transport, which is the one selected for a definition with a
    command, and ["http"] when it was reached by URL, through either
    the server-sent-events or the streaming-HTTP transport. *)
Theorem mcp_transport_metadata (t : StructuredTool) :
  t ∈ tools (open_mcp_toolset w start_path).1.1 →
  ∃ config_path data server_name cfg client,
    find_mcp_config_path (path_exists w) start_path = Some config_path ∧
    load_config w config_path = Ok data ∧
    extract_mcp_servers data !! server_name = Some (JObj cfg) ∧
    metadata t !! "mcp_server" = Some server_name ∧
    select_transport start_path cfg = Ok client ∧
    open_transport (server w server_name) client = Ok tt ∧
    metadata t !! "mcp_transport"
    = Some match client with
           | stdio_client _ _ _ _ => "stdio"
           | sse_client _ _ => "http"
           | streamable_http_client _ => "http"
           end.
Proof.
  intros (config_path & data & server_name & cfg & client & listed & mcp_tool
          & Hf & Hl & Hs & Hc & Hin & ->)%toolset_tools_inv.
  exists config_path, data, server_name, cfg, client.
  destruct Hc as [client listed Hsel Ht Hn Hi Hlist].
  repeat (split; [done|]).
  unfold make_tool. simpl. rewrite (select_transport_kind _ _ Hsel).
  by destruct client.
Qed.

End Provenance.

(** A server reached over server-sent events connects, and its tool
    records ["http"], not ["sse"]. *)
Lemma mcp_transport_metadata_sse :
  let '(toolset, stack, _) :=
    @open_mcp_toolset examples_builtins sse_world ["project"] in
  stack = [Session "events";
           Transport "events" (sse_client "https://example.com/sse" None)] ∧
  (λ t, metadata t !! "mcp_transport") <$> tools toolset = [Some "http"] ∧
  (λ t, metadata t !! "mcp_transport") <$> tools toolset ≠ [Some "sse"].
Proof. vm_compute. repeat split. discriminate. Qed.

(** The tool of the server-sent-events server above, traced back to its
    definition and its transport. *)
Lemma mcp_transport_metadata_witness :
  make_tool "events" sse_cfg (fake_tool "search")
    ∈ tools (@open_mcp_toolset examples_builtins sse_world ["project"]).1.1 ∧
  ∃ config_path data server_name cfg client,
    find_mcp_config_path (path_exists sse_world) ["project"] = Some config_path ∧
    load_config sse_world config_path = Ok data ∧
    extract_mcp_servers data !! server_name = Some (JObj cfg) ∧
    metadata (make_tool "events" sse_cfg (fake_tool "search")) !! "mcp_server"
      = Some server_name ∧
    @select_transport examples_builtins ["project"] cfg = Ok client ∧
    open_transport (server sse_world server_name) client = Ok tt ∧
    metadata (make_tool "events" sse_cfg (fake_tool "search")) !! "mcp_transport"
    = Some match client with
           | stdio_client _ _ _ _ => "stdio"
           | sse_client _ _ => "http"
           | streamable_http_client _ => "http"
           end.
Proof.
  split.
  - vm_compute. apply list_elem_of_here.
  - apply (@mcp_transport_metadata examples_builtins sse_world ["project"]).
    vm_compute. apply list_elem_of_here.
Defined.

(** ** Tool names *)

Lemma append_cons (c : ascii) (s r : string) :
  String c s +:+ r = String c (s +:+ r).
Proof. reflexivity. Qed.

Lemma append_nil_r (s : string) : s +:+ "" = s.
Proof. induction s as [|c s IH]; [done|]. by rewrite append_cons, IH. Qed.

Lemma append_assoc (a b c : string) : (a +:+ b) +:+ c = a +:+ b +:+ c.
Proof. induction a as [|x a IH]; [done|]. by rewrite !append_cons, IH. Qed.

Lemma length_append (a b : string) :
  String.length (a +:+ b) = String.length a + String.length b.
Proof.
  induction a as [|x a IH]; [done|]. rewrite append_cons. simpl. by rewrite IH.
Qed.

Lemma append_cancel_l (s a b : string) : s +:+ a = s +:+ b → a = b.
Proof.
  induction s as [|c s IH]; [done|]. rewrite !append_cons. intros [= ?]. auto.
Qed.

(** Two ways of cutting one string: one of the two heads is a prefix of
    the other. *)
Lemma append_eq_prefix (s1 s2 r1 r2 : string) :
  s1 +:+ r1 = s2 +:+ r2 → is_prefix s1 s2 ∨ is_prefix s2 s1.
Proof.
  revert s2. induction s1 as [|c s1 IH]; intros s2 Heq.
  - left. by exists s2.
  - destruct s2 as [|c' s2].
    + right. by exists (String c s1).
    + rewrite !append_cons in Heq. injection Heq as -> Heq.
      destruct (IH _ Heq) as [[rest ->]|[rest ->]]; [left|right]; by exists rest.
Qed.

Lemma append_cancel_r (a b s : string) : a +:+ s = b +:+ s → a = b.
Proof.
  intros Heq.
  assert (Hlen : String.length a = String.length b).
  { apply (f_equal String.length) in Heq. rewrite !length_append in Heq. lia. }
  destruct (append_eq_prefix _ _ _ _ Heq) as [[rest ->]|[rest ->]];
    rewrite length_append in Hlen;
    destruct rest; simpl in Hlen; try lia; by rewrite append_nil_r.
Qed.

(** The name given to a capability of a server. *)
Lemma make_tool_name (server_name : string) (cfg : gmap string json)
    (mcp_tool : McpTool) :
  name (make_tool server_name cfg mcp_tool)
  = server_name +:+ "__" +:+ tool_name mcp_tool.
Proof. reflexivity. Qed.

(** Namespaced names of two servers differ when the capability is the
    same, and when neither server name starts with the other. *)
Lemma namespaced_names_differ (s1 s2 c1 c2 : string) :
  s1 ≠ s2 →
  c1 = c2 ∨ (¬ is_prefix s1 s2 ∧ ¬ is_prefix s2 s1) →
  s1 +:+ "__" +:+ c1 ≠ s2 +:+ "__" +:+ c2.
Proof.
  intros Hne [->|[Hp1 Hp2]] Heq.
  - apply Hne, (append_cancel_r _ _ "__"), (append_cancel_r _ _ c2).
    by rewrite !append_assoc.
  - apply append_eq_prefix in Heq as [?|?]; tauto.
Qed.

Section Names.

Context `{!Builtins}.
Variables (w : World) (start_path : path).

(** C5 (as amended).  Every tool of a discovery pass is named
    [{server}__{capability}], after the server it belongs to and the
    capability as that server lists it.  The names of two tools of
    distinct servers differ whenever the two capabilities have the same
    name, and whenever neither server name is a prefix of the other. *)
Theorem tool_names_namespaced :
  let toolset := (open_mcp_toolset w start_path).1.1 in
  (∀ t, t ∈ tools toolset →
     ∃ server_name capability,
       metadata t !! "mcp_server" = Some server_name ∧
       metadata t !! "mcp_tool" = Some capability ∧
       coroutine t = {| _session := server_name; _mcp_tool_name := capability |} ∧
       name t = server_name +:+ "__" +:+ capability) ∧
  (∀ t1 t2, t1 ∈ tools toolset → t2 ∈ tools toolset →
     _session (coroutine t1) ≠ _session (coroutine t2) →
     _mcp_tool_name (coroutine t1) = _mcp_tool_name (coroutine t2) ∨
     (¬ is_prefix (_session (coroutine t1)) (_session (coroutine t2)) ∧
      ¬ is_prefix (_session (coroutine t2)) (_session (coroutine t1))) →
     name t1 ≠ name t2).
Proof.
  simpl. split.
  - intros t (_ & _ & server_name & cfg & _ & _ & mcp_tool
              & _ & _ & _ & _ & _ & ->)%toolset_tools_inv.
    by exists server_name, (tool_name mcp_tool).
  - intros t1 t2
      (_ & _ & s1 & cfg1 & _ & _ & m1 & _ & _ & _ & _ & _ & ->)%toolset_tools_inv
      (_ & _ & s2 & cfg2 & _ & _ & m2 & _ & _ & _ & _ & _ & ->)%toolset_tools_inv.
    simpl. intros Hne Hor. by apply namespaced_names_differ.
Qed.

End Names.

(** The servers ["a"] and ["a__b"], which list ["b__c"] and ["c"], both
    connect, and their two tools get the one name ["a__b__c"]. *)
Lemma tool_names_collide :
  let toolset :=
    (@open_mcp_toolset examples_builtins colliding_world ["project"]).1.1 in
  errors toolset = [] ∧
  (λ t, (_session (coroutine t), name t)) <$> tools toolset
  = [("a", "a__b__c"); ("a__b", "a__b__c")] ∧
  ¬ NoDup (name <$> tools toolset).
Proof.
  vm_compute. repeat split.
  intros Hnd. apply NoDup_cons_1_1 in Hnd. apply Hnd, list_elem_of_here.
Qed.

(** ** One failing server *)

Section Isolation.

Context `{!Builtins}.
Variables (w : World) (start_path : path).

#[local] Abbreviation errors_of :=
  (flat_map (λ kv, pass_errors (contribution w start_path kv))).
#[local] Abbreviation tools_of :=
  (flat_map (λ kv, pass_tools (contribution w start_path kv))).

Lemma flat_map_cons_eq {A B} (f : A → list B) (x : A) (l : list A) :
  flat_map f (x :: l) = f x ++ flat_map f l.
Proof. reflexivity. Qed.

(** A configured server sits at one place of the processing order. *)
Lemma sorted_items_split (servers : gmap string json) (k : string) (v : json) :
  servers !! k = Some v →
  ∃ before after,
    sorted_items servers = before ++ (k, v) :: after ∧
    (k ∉ before.*1) ∧ (k ∉ after.*1).
Proof.
  intros Hk%elem_of_sorted_items.
  apply list_elem_of_split in Hk as (before & after & Heq).
  exists before, after. split; [done|].
  pose proof (NoDup_sorted_items servers) as Hnd.
  rewrite Heq, fmap_app, fmap_cons in Hnd. simpl in Hnd.
  apply NoDup_app in Hnd as (_ & Hb & Ha).
  apply NoDup_cons in Ha as [Ha _]. split; [|done].
  intros Hin. apply (Hb _ Hin). apply list_elem_of_here.
Qed.


End Isolation.


(** ** Releasing what was opened *)

Section Release.

Context `{!Builtins}.
Variables (w : World) (start_path : path).

Lemma opened_by_server (kv : string * json) (r : resource) :
  r ∈ opened_by w start_path kv → resource_server r = kv.1.
Proof.
  unfold opened_by. destruct kv as [server_name cfg_obj]. simpl.
  destruct cfg_obj as [| | | | | |cfg]; try (intros Hin; by inversion Hin).
  destruct (select_transport start_path cfg) as [client|e];
    [|intros Hin; by inversion Hin].
  destruct (open_transport _ client) as [[]|e]; [|intros Hin; by inversion Hin].
  destruct (open_session _) as [[]|e];
    rewrite ?elem_of_cons, ?elem_of_nil; intros Hin;
    by destruct_or!; subst.
Qed.

Lemma NoDup_opened_by (kv : string * json) : NoDup (opened_by w start_path kv).
Proof.
  unfold opened_by. destruct (kv.2) as [| | | | | |cfg]; try apply NoDup_nil_2.
  destruct (select_transport start_path cfg) as [client|e]; [|apply NoDup_nil_2].
  destruct (open_transport _ client) as [[]|e]; [|apply NoDup_nil_2].
  destruct (open_session _) as [[]|e].
  - apply NoDup_cons. split; [|apply NoDup_singleton].
    rewrite list_elem_of_singleton. discriminate.
  - apply NoDup_singleton.
Qed.

(** Servers of distinct names open distinct context managers. *)
Lemma NoDup_opened (l : list (string * json)) :
  NoDup l.*1 → NoDup (flat_map (opened_by w start_path) l).
Proof.
  induction l as [|kv l IH]; simpl; [constructor|].
  intros [Hkv Hl]%NoDup_cons. apply NoDup_app.
  split; [apply NoDup_opened_by|]. split; [|by apply IH].
  intros r Hr%opened_by_server Hin.
  apply list_elem_of_In, in_flat_map in Hin as (kv' & Hkv'%list_elem_of_In & Hr').
  apply list_elem_of_In, opened_by_server in Hr'.
  apply Hkv, list_elem_of_fmap. exists kv'. split; [congruence|done].
Qed.

(** Up to the [yield], the exit stack holds what was opened, last
    opened first, and nothing has been released. *)
Lemma open_mcp_toolset_resources :
  (open_mcp_toolset w start_path).1.2 = rev (opened w start_path) ∧
  (open_mcp_toolset w start_path).2 = map Acquire (opened w start_path).
Proof.
  unfold open_mcp_toolset, opened.
  destruct (find_mcp_config_path _ _) as [config_path|]; [|done].
  destruct (load_config w config_path) as [data|e]; [|done].
  case_bool_decide as Hs; simpl.
  - rewrite Hs. unfold sorted_items. by rewrite map_to_list_empty.
  - apply servers_loop_resources.
Qed.

(** C8.  Over a whole [async with open_mcp_toolset(...)], whether its
    body returns or raises: the trace is every transport and session
    that opened, in the order of opening, followed by the release of
    each of them in the reverse order; no context manager occurs twice,
    so each is released exactly once; and the body's outcome is passed
    on.  The transport of a configured server is among them as soon as
    entering it succeeded, and its session as soon as entering that
    succeeded too, whatever the handshake or the listing does
    afterwards and whatever happens to the servers processed later. *)
Theorem exit_stack_releases_in_reverse {A} (body : McpToolset → result A) :
  let run := with_mcp_toolset w start_path body in
  run.2 = map Acquire (opened w start_path)
          ++ map Release (rev (opened w start_path)) ∧
  NoDup (opened w start_path) ∧
  run.1 = body (open_mcp_toolset w start_path).1.1 ∧
  (∀ config_path data server_name cfg client,
     find_mcp_config_path (path_exists w) start_path = Some config_path →
     load_config w config_path = Ok data →
     extract_mcp_servers data !! server_name = Some (JObj cfg) →
     select_transport start_path cfg = Ok client →
     open_transport (server w server_name) client = Ok tt →
     Transport server_name client ∈ opened w start_path ∧
     (open_session (server w server_name) = Ok tt →
      Session server_name ∈ opened w start_path)).
Proof.
  simpl. unfold with_mcp_toolset.
  destruct open_mcp_toolset_resources as [Hstack Htrace].
  destruct (open_mcp_toolset w start_path) as [[toolset stack] trace].
  simpl in *. subst stack trace. split; [done|]. split; [|split; [done|]].
  - unfold opened.
    destruct (find_mcp_config_path _ _) as [config_path|]; [|constructor].
    destruct (load_config w config_path) as [data|e]; [|constructor].
    apply NoDup_opened, NoDup_sorted_items.
  - intros config_path data server_name cfg client Hf Hl Hs Hsel Ht.
    unfold opened. rewrite Hf, Hl.
    apply elem_of_sorted_items in Hs.
    assert (Hin : ∀ r, r ∈ opened_by w start_path (server_name, JObj cfg) →
              r ∈ flat_map (opened_by w start_path)
                    (sorted_items (extract_mcp_servers data))).
    { intros r Hr. apply list_elem_of_In, in_flat_map.
      exists (server_name, JObj cfg). by rewrite <- !list_elem_of_In. }
    unfold opened_by in Hin at 1. simpl in Hin. rewrite Hsel, Ht in Hin.
    split.
    + apply Hin, list_elem_of_here.
    + intros Hn. rewrite Hn in Hin. apply Hin. by repeat constructor.
Qed.

End Release.

(** ** The unit test

    [test_open_mcp_toolset_exposes_tools_and_can_invoke]: the pass over
    the test's configuration reports no error and one tool,
    ["tavily__search"], described under the tag of its server; invoking
    it with [{"q": "hello"}] sends exactly that to the session of
    ["tavily"], under the name ["search"], and returns ["ok"]. *)
Lemma test_open_mcp_toolset_exposes_tools_and_can_invoke :
  let toolset :=
    (@open_mcp_toolset examples_builtins test_world ["project"]).1.1 in
  errors toolset = [] ∧
  config_path toolset = Some ["project"; ".mcp.json"] ∧
  (λ t, (name t, description t)) <$> tools toolset
  = [("tavily__search", "[MCP:tavily] Search something")] ∧
  (λ t, @ainvoke examples_builtins test_world t {[ "q" := JStr "hello" ]})
    <$> tools toolset
  = [(Ok "ok",
      [ {| call_session := "tavily"; call_name := JStr "search";
           call_arguments := {[ "q" := JStr "hello" ]} |} ])].
Proof. vm_compute. done. Qed.

(** * Further properties of the module *)

(** ** Locating the configuration file *)

Section Locate.

Variable exists_ : path → bool.

Lemma first_config_cons (dir : path) (dirs : list path) :
  first_config exists_ (dir :: dirs)
  = if exists_ (dir ++ [".mcp.json"]) then Some (dir ++ [".mcp.json"])
    else first_config exists_ dirs.
Proof. reflexivity. Qed.

Lemma rev_seq_S (m : nat) : rev (seq 0 (S m)) = m :: rev (seq 0 m).
Proof. by rewrite seq_S, rev_app_distr. Qed.

(** The search over the directories [take m start], ..., [take 0 start]:
    the first hit is the longest of them holding the file. *)
Lemma first_config_prefixes (start : path) (m : nat) :
  match first_config exists_
          (map (λ n, take n start) (rev (seq 0 (S m)))) with
  | Some c =>
      ∃ n, n ≤ m ∧ c = take n start ++ [".mcp.json"] ∧ exists_ c = true ∧
           ∀ n', n < n' ≤ m → exists_ (take n' start ++ [".mcp.json"]) = false
  | None => ∀ n, n ≤ m → exists_ (take n start ++ [".mcp.json"]) = false
  end.
Proof.
  induction m as [|m IH].
  - change (rev (seq 0 1)) with [0]. rewrite map_cons, first_config_cons.
    destruct (exists_ (take 0 start ++ [".mcp.json"])) eqn:E.
    + exists 0. repeat split; [lia|done|lia].
    + intros n Hn. by replace n with 0 by lia.
  - rewrite rev_seq_S, map_cons, first_config_cons.
    destruct (exists_ (take (S m) start ++ [".mcp.json"])) eqn:E.
    + exists (S m). repeat split; [lia|done|lia].
    + destruct (first_config _ _) as [c|].
      * destruct IH as (n & Hn & -> & Hc & Hnear).
        exists n. repeat split; [lia|done|].
        intros n' Hn'. destruct (decide (n' = S m)) as [->|]; [done|].
        apply Hnear. lia.
      * intros n Hn. destruct (decide (n = S m)) as [->|]; [done|].
        apply IH. lia.
Qed.

Lemma prefix_of_take (dir start : path) :
  dir `prefix_of` start ↔
  length dir ≤ length start ∧ dir = take (length dir) start.
Proof.
  split.
  - intros [rest ->]. rewrite length_app, take_app_length. split; [lia|done].
  - intros [_ ->]. apply prefix_take.
Qed.

(** X1.  The configuration file found for a start directory lies in
    that directory or in one of its ancestors, it exists, and no
    directory nearer to the start holds one. *)
Theorem find_mcp_config_path_nearest (start_path config_path : path) :
  find_mcp_config_path exists_ start_path = Some config_path →
  ∃ dir, dir `prefix_of` start_path ∧
         config_path = dir ++ [".mcp.json"] ∧
         exists_ config_path = true ∧
         ∀ dir', dir' `prefix_of` start_path → length dir < length dir' →
                 exists_ (dir' ++ [".mcp.json"]) = false.
Proof.
  unfold find_mcp_config_path, self_and_parents. intros Hfind.
  pose proof (first_config_prefixes start_path (length start_path)) as H.
  rewrite Hfind in H. destruct H as (n & Hn & -> & Hc & Hnear).
  exists (take n start_path). split; [apply prefix_take|].
  repeat split; [done|].
  intros dir' [Hlen ->]%prefix_of_take Hlt.
  apply Hnear. rewrite !length_take in Hlt. lia.
Qed.

(** X2.  No configuration file is found exactly when neither the start
    directory nor any of its ancestors holds one. *)
Theorem find_mcp_config_path_none (start_path : path) :
  find_mcp_config_path exists_ start_path = None ↔
  ∀ dir, dir `prefix_of` start_path → exists_ (dir ++ [".mcp.json"]) = false.
Proof.
  unfold find_mcp_config_path, self_and_parents.
  pose proof (first_config_prefixes start_path (length start_path)) as H.
  split.
  - intros Hfind. rewrite Hfind in H.
    intros dir [Hlen ->]%prefix_of_take. by apply H.
  - intros Hnone. destruct (first_config _ _) as [c|]; [|done].
    destruct H as (n & Hn & -> & Hc & _).
    rewrite Hnone in Hc; [done|apply prefix_take].
Qed.

End Locate.

(** A project whose configuration sits two directories above the start
    directory. *)
Lemma find_mcp_config_path_nearest_witness :
  find_mcp_config_path (path_exists test_world) ["project"; "src"; "pkg"]
    = Some ["project"; ".mcp.json"] ∧
  ∃ dir, dir `prefix_of` ["project"; "src"; "pkg"] ∧
         ["project"; ".mcp.json"] = dir ++ [".mcp.json"] ∧
         path_exists test_world ["project"; ".mcp.json"] = true ∧
         ∀ dir', dir' `prefix_of` ["project"; "src"; "pkg"] →
                 length dir < length dir' →
                 path_exists test_world (dir' ++ [".mcp.json"]) = false.
Proof.
  split; [reflexivity|].
  apply (find_mcp_config_path_nearest (path_exists test_world)
           ["project"; "src"; "pkg"] ["project"; ".mcp.json"]).
  reflexivity.
Defined.

(** ** The configuration normaliser *)

Lemma meta_keys_spec (k : string) :
  k ∈ meta_keys ↔ k = "$schema" ∨ k = "version" ∨ k = "inputs" ∨ k = "env".
Proof.
  unfold meta_keys. rewrite !elem_of_union, !elem_of_singleton. tauto.
Qed.

(** Changing a metadata entry does not change the candidates. *)
Lemma candidate_insert_meta (d : gmap string json) (k : string) (v : json) :
  k ∈ meta_keys →
  filter (λ kv : string * json, kv.1 ∉ meta_keys) (<[k:=v]> d)
  = filter (λ kv : string * json, kv.1 ∉ meta_keys) d.
Proof.
  intros Hk. apply map_eq. intros i. rewrite !candidate_lookup.
  case_decide as Hi; [done|]. apply lookup_insert_ne. by intros ->.
Qed.

Lemma candidate_delete_meta (d : gmap string json) (k : string) :
  k ∈ meta_keys →
  filter (λ kv : string * json, kv.1 ∉ meta_keys) (delete k d)
  = filter (λ kv : string * json, kv.1 ∉ meta_keys) d.
Proof.
  intros Hk. apply map_eq. intros i. rewrite !candidate_lookup.
  case_decide as Hi; [done|]. apply lookup_delete_ne. by intros ->.
Qed.

(** X3.  The metadata entries of a document play no part: setting
    [$schema], [version], [inputs] or [env] to any value, or removing it,
    leaves the extracted servers as they are. *)
Theorem extract_mcp_servers_ignores_metadata (d : gmap string json)
    (k : string) (v : json) :
  k ∈ meta_keys →
  extract_mcp_servers (JObj (<[k:=v]> d)) = extract_mcp_servers (JObj d) ∧
  extract_mcp_servers (JObj (delete k d)) = extract_mcp_servers (JObj d).
Proof.
  intros Hk.
  assert (Hm : k ≠ "mcpServers")
    by (apply meta_keys_spec in Hk; intros ->; intuition discriminate).
  assert (Hs : k ≠ "servers")
    by (apply meta_keys_spec in Hk; intros ->; intuition discriminate).
  unfold extract_mcp_servers, dict_get.
  rewrite !lookup_insert_ne, !lookup_delete_ne by done.
  by rewrite candidate_insert_meta, candidate_delete_meta.
Qed.

Lemma extract_mcp_servers_ignores_metadata_witness :
  "version" ∈ meta_keys ∧
  extract_mcp_servers
    (JObj (<["version" := JInt 1]> {[ "tavily" := stdio_definition ]}))
  = extract_mcp_servers (JObj {[ "tavily" := stdio_definition ]}) ∧
  extract_mcp_servers (JObj (delete "version" {[ "tavily" := stdio_definition ]}))
  = extract_mcp_servers (JObj {[ "tavily" := stdio_definition ]}).
Proof.
  assert (Hk : "version" ∈ meta_keys) by (apply meta_keys_spec; auto).
  split; [exact Hk|].
  apply (extract_mcp_servers_ignores_metadata
           {[ "tavily" := stdio_definition ]} "version" (JInt 1) Hk).
Defined.

(** X4.  In a document without a server group, one top-level entry that
    is no metadata and does not look like a server makes the whole
    document yield no servers, whatever the other entries are. *)
Theorem extract_mcp_servers_all_or_nothing (d : gmap string json)
    (k : string) (v : json) :
  ¬ holds_mapping d "mcpServers" → ¬ holds_mapping d "servers" →
  k ∉ meta_keys → d !! k = Some v → ¬ server_like v →
  extract_mcp_servers (JObj d) = ∅.
Proof.
  intros Hn1 Hn2 Hk Hv Hnot.
  rewrite (extract_mcp_servers_flattened d Hn1 Hn2). cbv zeta.
  destruct (bool_decide _) eqn:Hemp; simpl; [done|].
  destruct (all_dicts _) eqn:Hd; simpl; [|done].
  destruct (all_look_like_servers _) eqn:Hl; [|done].
  exfalso. apply Hnot.
  assert (Hall : map_Forall (λ _ v, server_like v)
            (filter (λ kv : string * json, kv.1 ∉ meta_keys) d))
    by (apply candidate_checks_spec; by rewrite Hd, Hl).
  apply (Hall k). rewrite candidate_lookup. by rewrite decide_False.
Qed.

Lemma extract_mcp_servers_all_or_nothing_witness :
  extract_mcp_servers
    (JObj {[ "tavily" := stdio_definition; "note" := JStr "my servers" ]}) = ∅.
Proof.
  apply (extract_mcp_servers_all_or_nothing _ "note" (JStr "my servers")).
  - intros [m Hm]. discriminate Hm.
  - intros [m Hm]. discriminate Hm.
  - rewrite meta_keys_spec. intuition discriminate.
  - reflexivity.
  - intros (cfg & Hcfg & _). discriminate Hcfg.
Defined.

(** ** The result normaliser *)

Lemma join_cons_cons (sep x y : string) (l : list string) :
  join sep (x :: y :: l) = x +:+ sep +:+ join sep (y :: l).
Proof. reflexivity. Qed.


Lemma join_nonempty (sep : string) (l : list string) :
  Forall (λ p, p ≠ "") l → l ≠ [] → join sep l ≠ "".
Proof.
  intros Hl Hne. destruct l as [|x l]; [done|].
  apply Forall_cons in Hl as [Hx _].
  destruct x as [|c x]; [done|]. by destruct l.
Qed.

Lemma Forall_filter_nonempty (l : list string) :
  Forall (λ p, p ≠ "") (filter (λ p, p ≠ "") l).
Proof. apply Forall_forall. by intros p [Hp _]%list_elem_of_filter. Qed.

Lemma filter_nonempty_nil (l : list string) :
  filter (λ p, p ≠ "") l = [] ↔ Forall (λ p, p = "") l.
Proof.
  induction l as [|x l IH]; [done|].
  rewrite filter_cons, Forall_cons. case_decide as Hx.
  - split; [done|]. by intros [? _].
  - rewrite IH. tauto.
Qed.

Lemma Forall_map_empty {A} (f : A → string) (l : list A) :
  Forall (λ p, p = "") (map f l) ↔ Forall (λ x, f x = "") l.
Proof.
  induction l as [|x l IH]; simpl; [done|]. by rewrite !Forall_cons, IH.
Qed.

Section FormatMore.

Context `{!Builtins}.

Lemma blocks_text_eq (blocks : list ContentBlock) :
  blocks_text blocks
  = join newline (filter (λ p, p ≠ "") (map block_part blocks)).
Proof.
  unfold blocks_text, _format_call_tool_result. simpl.
  destruct blocks as [|block blocks]; [reflexivity|].
  rewrite parts_loop. simpl app. f_equal.
  apply list_filter_iff. intros p. by destruct p.
Qed.


(** X6.  Without a structured payload the normalised text is empty
    exactly when there are no content blocks or every block contributes
    the empty string. *)
Theorem _format_call_tool_result_empty_iff (result : CallToolResult) :
  structuredContent result = JNull →
  (_format_call_tool_result result = "" ↔
   Forall (λ block, block_part block = "") (default [] (content result))).
Proof.
  intros Hs.
  assert (Heq : _format_call_tool_result result
                = blocks_text (default [] (content result))).
  { unfold blocks_text, _format_call_tool_result. rewrite Hs. simpl.
    by destruct (content result) as [[|block blocks]|]. }
  rewrite Heq, blocks_text_eq. split.
  - intros Hempty. apply Forall_map_empty, filter_nonempty_nil.
    destruct (filter _ _) as [|p parts] eqn:Hf; [done|].
    exfalso. revert Hempty. apply join_nonempty; [|done].
    rewrite <- Hf. apply Forall_filter_nonempty.
  - intros Hall. apply Forall_map_empty, filter_nonempty_nil in Hall.
    by rewrite Hall.
Qed.

End FormatMore.

Lemma _format_call_tool_result_empty_iff_witness :
  @_format_call_tool_result examples_builtins
    {| structuredContent := JNull;
       content := Some [text_block ""; text_block ""];
       isError := true |} = "".
Proof.
  apply (@_format_call_tool_result_empty_iff examples_builtins); [reflexivity|].
  repeat constructor.
Defined.

(** ** The stdio command normaliser *)

Section NormalizeMore.

Context `{!Builtins}.


End NormalizeMore.


(** ** Lexing a command made of plain words *)

Lemma list_ascii_of_string_app (a b : string) :
  list_ascii_of_string (a +:+ b)
  = list_ascii_of_string a ++ list_ascii_of_string b.
Proof.
  induction a as [|c a IH]; [done|]. rewrite append_cons. simpl. by rewrite IH.
Qed.

(** Inside a word, plain characters are appended to the token. *)
Lemma read_plain_chars (chars rest : list ascii) (token : string)
    (quoted : bool) (done : list string) :
  forallb plain_char chars = true →
  Shlex.read (chars ++ rest) Shlex.Word token quoted done
  = Shlex.read rest Shlex.Word (token +:+ string_of_list_ascii chars) quoted done.
Proof.
  revert token. induction chars as [|c chars IH]; intros token Hp.
  - simpl. by rewrite append_nil_r.
  - simpl in Hp. apply andb_true_iff in Hp as [Hc Hp].
    unfold plain_char in Hc.
    apply andb_true_iff in Hc as [[Hw Hq]%andb_true_iff He].
    apply negb_true_iff in Hw, Hq, He.
    simpl. rewrite Hw, Hq, He, (IH _ Hp). unfold Shlex.snoc.
    by rewrite append_assoc.
Qed.

(** Between two tokens, a plain word is read up as the next token. *)
Lemma read_plain_word (word : string) (rest : list ascii) (token : string)
    (quoted : bool) (done : list string) :
  plain_word word →
  Shlex.read (list_ascii_of_string word ++ rest) Shlex.Between token quoted done
  = Shlex.read rest Shlex.Word word quoted done.
Proof.
  intros [Hne Hp]. destruct word as [|c word]; [done|].
  simpl in Hp. apply andb_true_iff in Hp as [Hc Hp].
  pose proof Hc as Hc'. unfold plain_char in Hc'.
  apply andb_true_iff in Hc' as [[Hw Hq]%andb_true_iff He].
  apply negb_true_iff in Hw, Hq, He.
  simpl. rewrite Hw, Hq, He, (read_plain_chars _ _ _ _ _ Hp).
  by rewrite append_cons, string_of_list_ascii_of_string.
Qed.

(** [shlex.split(" ".join(words))] gives back plain words. *)
Lemma read_plain_words (word : string) (words : list string)
    (token : string) (done : list string) :
  Forall plain_word (word :: words) →
  Shlex.read (list_ascii_of_string (join " " (word :: words)))
             Shlex.Between token false done
  = Ok (rev done ++ word :: words).
Proof.
  revert word token done.
  induction words as [|word' words IH]; intros word token done Hall.
  - apply Forall_cons in Hall as [Hw _].
    rewrite <- (app_nil_r (list_ascii_of_string _)).
    simpl join. rewrite (read_plain_word _ _ _ _ _ Hw). simpl.
    destruct Hw as [Hne _]. by destruct word.
  - apply Forall_cons in Hall as [Hw Hall].
    rewrite join_cons_cons, list_ascii_of_string_app.
    rewrite (read_plain_word _ _ _ _ _ Hw).
    rewrite list_ascii_of_string_app. simpl.
    destruct Hw as [Hne _]. destruct word as [|c word]; [done|]. simpl.
    rewrite (IH _ _ _ Hall). simpl. by rewrite <- app_assoc.
Qed.

Lemma any_isspace_joined (word word' : string) (words : list string) :
  any_isspace (join " " (word :: word' :: words)) = true.
Proof.
  unfold any_isspace.
  rewrite join_cons_cons, !list_ascii_of_string_app, !existsb_app.
  simpl. by rewrite orb_true_r.
Qed.

Section Joined.

Context `{!Builtins}.

(** X8.  A command written as an executable and arguments separated by
    single spaces, each a non-empty word without whitespace, quotes or
    backslashes, is normalised back into that executable and those
    arguments. *)
Theorem _normalize_stdio_command_joined (exe : string) (args : list string) :
  Forall plain_word (exe :: args) →
  _normalize_stdio_command (JStr (join " " (exe :: args))) JNull
  = Ok (exe, args).
Proof.
  intros Hall.
  assert (Hsplit : Shlex.split (join " " (exe :: args)) = Ok (exe :: args))
    by apply (read_plain_words exe args "" [] Hall).
  destruct (any_isspace (join " " (exe :: args))) eqn:Hsp.
  - by rewrite _normalize_stdio_command_split, Hsplit.
  - destruct args as [|arg args]; [|by rewrite any_isspace_joined in Hsp].
    change (join " " [exe]) with exe in *.
    unfold _normalize_stdio_command. simpl. rewrite Hsp.
    by destruct exe.
Qed.

End Joined.

Lemma _normalize_stdio_command_joined_witness :
  @_normalize_stdio_command examples_builtins
    (JStr (join " " ["uvx"; "mcp-server-fetch"; "--port=8080"])) JNull
  = Ok ("uvx", ["mcp-server-fetch"; "--port=8080"]).
Proof.
  apply (@_normalize_stdio_command_joined examples_builtins).
  repeat constructor; discriminate.
Defined.

(** ** Selecting the transport *)

(** The lexer raises nothing but [ValueError]. *)
Lemma read_raises_ValueError (chars : list ascii) (st : Shlex.state)
    (token : string) (quoted : bool) (done : list string) (e : exn) :
  Shlex.read chars st token quoted done = Raise e → exn_type e = "ValueError".
Proof.
  revert st token quoted done.
  induction chars as [|c chars IH]; intros st token quoted done.
  - destruct st; simpl; try (by intros [= <-]).
    by destruct (_ || _).
  - destruct st; simpl; repeat case_match; apply IH.
Qed.

Section SelectMore.

Context `{!Builtins}.
Variable start_path : path.

Lemma _normalize_stdio_command_raises (raw_command raw_args : json) (e : exn) :
  _normalize_stdio_command raw_command raw_args = Raise e →
  exn_type e = "ValueError".
Proof.
  unfold _normalize_stdio_command.
  destruct (_ && _); [done|]. destruct (_ && _); [|done].
  unfold Shlex.split.
  destruct (Shlex.read _ _ _ _ _) as [split|e'] eqn:Hread; simpl.
  - by destruct split.
  - intros [= <-]. by eapply read_raises_ValueError.
Qed.

(** X9.  A definition with a ["command"] key selects its transport from
    [command], [args] and [env] alone: [url], [type], [headers] and any
    other field are never looked at. *)
Theorem stdio_selection_ignores_other_fields (cfg1 cfg2 : gmap string json) :
  is_Some (cfg1 !! "command") →
  cfg1 !! "command" = cfg2 !! "command" →
  cfg1 !! "args" = cfg2 !! "args" →
  cfg1 !! "env" = cfg2 !! "env" →
  select_transport start_path cfg1 = select_transport start_path cfg2.
Proof.
  intros Hc Hcommand Hargs Henv. unfold select_transport, dict_has, dict_get.
  rewrite <- Hcommand, <- Hargs, <- Henv.
  by rewrite bool_decide_eq_true_2.
Qed.

(** X10.  Whatever the definition, turning it into a transport raises
    nothing but [ValueError]. *)
Theorem select_transport_raises_ValueError (cfg : gmap string json) (e : exn) :
  select_transport start_path cfg = Raise e → exn_type e = "ValueError".
Proof.
  unfold select_transport. destruct (dict_has cfg "command").
  - destruct (_normalize_stdio_command _ _) as [[command args]|e'] eqn:Hn;
      simpl.
    + destruct (negb _); [by intros [= <-]|done].
    + intros [= <-]. by eapply _normalize_stdio_command_raises.
  - destruct (dict_has cfg "url"); [|by intros [= <-]].
    destruct (dict_get cfg "url") as [| | | |[|c url]| |];
      try (by intros [= <-]).
    by repeat case_match.
Qed.

(** X11.  A definition that cannot name its server is rejected in the
    same way whatever else it holds: a ["command"] that is no string or
    is empty shadows any [url]; without a command, a ["url"] that is no
    string or is empty is refused; and a definition with neither key is
    refused. *)
Theorem select_transport_rejects (cfg : gmap string json) :
  (is_Some (cfg !! "command") →
   default "" (as_str (dict_get cfg "command")) = "" →
   select_transport start_path cfg
   = Raise (ValueError "Missing 'command' for stdio MCP server")) ∧
  (cfg !! "command" = None → is_Some (cfg !! "url") →
   default "" (as_str (dict_get cfg "url")) = "" →
   select_transport start_path cfg
   = Raise (ValueError "Missing 'url' for HTTP/SSE MCP server")) ∧
  (cfg !! "command" = None → cfg !! "url" = None →
   select_transport start_path cfg
   = Raise (ValueError "Expected either 'command' or 'url' in MCP server config")).
Proof.
  unfold select_transport, dict_has. split; [|split].
  - intros Hc Hempty. rewrite bool_decide_eq_true_2 by done.
    unfold _normalize_stdio_command. by rewrite Hempty.
  - intros Hc Hu Hempty.
    rewrite Hc, bool_decide_eq_false_2 by (by intros [? [=]]).
    rewrite bool_decide_eq_true_2 by done.
    by destruct (dict_get cfg "url") as [| | | |[|c url]| |].
  - intros Hc Hu. rewrite Hc, Hu.
    by rewrite !bool_decide_eq_false_2 by (by intros [? [=]]).
Qed.

(** X12.  The stdio transport is never selected with an empty
    executable; its working directory is the start path; and it gets an
    environment only from an [env] field that is a non-empty mapping,
    with every value through [str]. *)
Theorem stdio_client_parameters (cfg : gmap string json) (command : string)
    (args : list string) (env : option (gmap string string)) (cwd : string) :
  select_transport start_path cfg = Ok (stdio_client command args env cwd) →
  command ≠ "" ∧
  cwd = path_str start_path ∧
  _normalize_stdio_command (dict_get cfg "command") (dict_get cfg "args")
  = Ok (command, args) ∧
  match cfg !! "env" with
  | Some (JObj d) => env = if decide (d = ∅) then None else Some (str <$> d)
  | _ => env = None
  end.
Proof.
  unfold select_transport. destruct (dict_has cfg "command").
  - destruct (_normalize_stdio_command _ _) as [[command' args']|e'];
      [|done]. simpl.
    destruct command' as [|c command']; [done|]. simpl. intros [= <- <- <- <-].
    repeat split; [done|].
    unfold dict_get. destruct (cfg !! "env") as [[| | | | | |d]|]; simpl;
      try by rewrite fmap_empty.
    case_decide as Hd; [by rewrite Hd, fmap_empty|].
    rewrite bool_decide_eq_false_2; [done|].
    by intros ?%fmap_empty_inv.
  - destruct (dict_has cfg "url"); [|done].
    destruct (dict_get cfg "url") as [| | | |[|c url]| |]; try done.
    by repeat case_match.
Qed.

(** X13.  For a server-sent-events server the [headers] field reaches
    the client unchanged when it is a non-empty mapping, and no headers
    are passed when it is absent, empty or no mapping. *)
Theorem sse_client_headers (cfg : gmap string json) (c : ascii) (url : string) :
  cfg !! "command" = None →
  cfg !! "url" = Some (JStr (String c url)) →
  cfg !! "type" = Some (JStr "sse") →
  select_transport start_path cfg
  = Ok (sse_client (String c url)
          match cfg !! "headers" with
          | Some (JObj h) => if decide (h = ∅) then None else Some h
          | _ => None
          end).
Proof.
  intros Hc Hu Ht. unfold select_transport, dict_has, dict_get.
  rewrite Hc, Hu, Ht. simpl.
  destruct (cfg !! "headers") as [[| | | | | |h]|]; simpl; try done.
  destruct (decide (h = ∅)) as [->|Hh];
    [by rewrite bool_decide_eq_true_2|by rewrite bool_decide_eq_false_2].
Qed.

End SelectMore.

Lemma stdio_selection_ignores_other_fields_witness :
  @select_transport examples_builtins ["project"] stdio_cfg_with_url
  = @select_transport examples_builtins ["project"] stdio_cfg.
Proof.
  apply (@stdio_selection_ignores_other_fields examples_builtins ["project"]
           stdio_cfg_with_url stdio_cfg); [by eexists|reflexivity..].
Defined.

Lemma select_transport_raises_ValueError_witness :
  @select_transport examples_builtins ["project"] unbalanced_cfg
    = Raise (ValueError "No closing quotation") ∧
  exn_type (ValueError "No closing quotation") = "ValueError".
Proof.
  split; [reflexivity|].
  apply (@select_transport_raises_ValueError examples_builtins ["project"]
           unbalanced_cfg).
  reflexivity.
Defined.

Lemma stdio_client_parameters_witness :
  @select_transport examples_builtins ["project"] stdio_cfg
    = Ok (stdio_client "npx" ["-y"; "mcp-remote"; "https://example.com"]
            None "/project") ∧
  "npx" ≠ "" ∧ "/project" = path_str ["project"].
Proof.
  split; [reflexivity|].
  destruct (@stdio_client_parameters examples_builtins ["project"] stdio_cfg
              "npx" ["-y"; "mcp-remote"; "https://example.com"] None "/project"
              eq_refl) as (Hexe & Hcwd & _).
  by split.
Defined.

Lemma sse_client_headers_witness :
  @select_transport examples_builtins ["project"] sse_cfg_with_headers
  = Ok (sse_client "https://example.com/sse"
          (Some {[ "Authorization" := JStr "Bearer token" ]})).
Proof.
  rewrite (@sse_client_headers examples_builtins ["project"]
             sse_cfg_with_headers "h" "ttps://example.com/sse");
    reflexivity.
Defined.

(** ** The order of the servers *)

Lemma string_leb_trans (a b c : string) :
  String.leb a b = true → String.leb b c = true → String.leb a c = true.
Proof.
  unfold String.leb. revert b c.
  induction a as [|x a IH]; intros [|y b] [|z c]; simpl; try done.
  destruct (Ascii.compare x y) eqn:Hxy, (Ascii.compare y z) eqn:Hyz;
    try done; intros Hab Hbc.
  - apply Ascii.compare_eq_iff in Hxy, Hyz. subst.
    unfold Ascii.compare. rewrite N.compare_refl. by apply (IH b c).
  - apply Ascii.compare_eq_iff in Hxy. subst. by rewrite Hyz.
  - apply Ascii.compare_eq_iff in Hyz. subst. by rewrite Hxy.
  - unfold Ascii.compare in *. rewrite N.compare_lt_iff in Hxy, Hyz.
    pose proof (N.lt_trans _ _ _ Hxy Hyz) as Hxz.
    rewrite <- N.compare_lt_iff in Hxz. by rewrite Hxz.
Qed.

Global Instance key_le_trans : Transitive key_le.
Proof. intros a b c. apply string_leb_trans. Qed.

Global Instance key_le_total : Total key_le.
Proof. intros a b. apply String.leb_total. Qed.

Lemma sorted_items_strongly_sorted (servers : gmap string json) :
  StronglySorted key_le (sorted_items servers).
Proof. apply (StronglySorted_merge_sort key_le). Qed.

Lemma flat_map_nil_iff {A B} (f : A → list B) (l : list A) :
  flat_map f l = [] ↔ Forall (λ x, f x = []) l.
Proof.
  induction l as [|x l IH]; simpl; [done|].
  rewrite Forall_cons, <- IH. split.
  - by intros [??]%app_eq_nil.
  - by intros [-> ->].
Qed.

(** ** More on the discovery pass *)

Lemma server_of_make_tool (server_name : string) (cfg : gmap string json)
    (mcp_tool : McpTool) :
  server_of (make_tool server_name cfg mcp_tool) = server_name.
Proof. reflexivity. Qed.

Lemma StronglySorted_all {A} (R : relation A) (l : list A) :
  (∀ x y, x ∈ l → y ∈ l → R x y) → StronglySorted R l.
Proof.
  induction l as [|x l IH]; intros HR; constructor.
  - apply IH. intros y z Hy Hz. apply HR; by right.
  - apply Forall_forall. intros y Hy. apply HR; [left|by right].
Qed.

Lemma filter_none {A} (P : A → Prop) `{!∀ x, Decision (P x)} (l : list A) :
  Forall (λ x, ¬ P x) l → filter P l = [].
Proof.
  induction 1 as [|x l Hx Hl IH]; [done|].
  by rewrite filter_cons, decide_False.
Qed.

Lemma filter_all {A} (P : A → Prop) `{!∀ x, Decision (P x)} (l : list A) :
  Forall P l → filter P l = l.
Proof.
  induction 1 as [|x l Hx Hl IH]; [done|].
  by rewrite filter_cons, decide_True, IH.
Qed.

Section PassMore.

Context `{!Builtins}.
Variables (w : World) (start_path : path).

#[local] Abbreviation errors_of :=
  (flat_map (λ kv, pass_errors (contribution w start_path kv))).
#[local] Abbreviation tools_of :=
  (flat_map (λ kv, pass_tools (contribution w start_path kv))).

(** The toolset of a pass over a parsed configuration, also when it
    yields no servers. *)
Lemma toolset_of_servers (config_path : path) (data : json) :
  find_mcp_config_path (path_exists w) start_path = Some config_path →
  load_config w config_path = Ok data →
  tools (open_mcp_toolset w start_path).1.1
  = tools_of (sorted_items (extract_mcp_servers data)) ∧
  (extract_mcp_servers data ≠ ∅ →
   errors (open_mcp_toolset w start_path).1.1
   = errors_of (sorted_items (extract_mcp_servers data))).
Proof.
  intros Hf Hl. destruct (decide (extract_mcp_servers data = ∅)) as [He|Hne].
  - split; [|done]. unfold open_mcp_toolset.
    rewrite Hf, Hl, bool_decide_eq_true_2 by done. rewrite He.
    unfold sorted_items. by rewrite map_to_list_empty.
  - rewrite (open_mcp_toolset_servers _ _ _ _ Hf Hl Hne). simpl.
    by rewrite servers_loop_tools, servers_loop_errors.
Qed.

Lemma contribution_tools_server (kv : string * json) (t : StructuredTool) :
  t ∈ pass_tools (contribution w start_path kv) → server_of t = kv.1.
Proof.
  intros (cfg & client & listed & mcp_tool & _ & _ & _ & ->)%contribution_tools_inv.
  apply server_of_make_tool.
Qed.

Lemma elem_of_tools_of (l : list (string * json)) (t : StructuredTool) :
  t ∈ tools_of l ↔ ∃ kv, kv ∈ l ∧ t ∈ pass_tools (contribution w start_path kv).
Proof.
  rewrite list_elem_of_In, in_flat_map. setoid_rewrite list_elem_of_In. done.
Qed.

Lemma tools_of_sorted (l : list (string * json)) :
  StronglySorted key_le l → StronglySorted server_order (tools_of l).
Proof.
  induction 1 as [|kv l Hl IH Hkv]; simpl; [constructor|].
  apply StronglySorted_app_2; [| |done].
  - intros t1 t2 Ht1%contribution_tools_server
      (kv' & Hin & Ht2%contribution_tools_server)%elem_of_tools_of.
    unfold server_order. rewrite Ht1, Ht2.
    rewrite Forall_forall in Hkv. by apply Hkv.
  - apply StronglySorted_all.
    intros t1 t2 Ht1%contribution_tools_server Ht2%contribution_tools_server.
    unfold server_order. rewrite Ht1, Ht2.
    by destruct (String.leb_total kv.1 kv.1).
Qed.

Lemma tools_of_other_servers (l : list (string * json)) (server_name : string) :
  server_name ∉ l.*1 →
  filter (λ t, server_of t = server_name) (tools_of l) = [].
Proof.
  intros Hnot. apply filter_none, Forall_forall.
  intros t (kv & Hin & Ht%contribution_tools_server)%elem_of_tools_of Hs.
  apply Hnot, list_elem_of_fmap. exists kv. split; [congruence|done].
Qed.

(** X14.  The tools of a pass come server by server, the servers in the
    order of their names, and for each server that connected exactly its
    capabilities as tools, in the order in which it lists them. *)
Theorem tools_follow_server_order (config_path : path) (data : json) :
  find_mcp_config_path (path_exists w) start_path = Some config_path →
  load_config w config_path = Ok data →
  let toolset := (open_mcp_toolset w start_path).1.1 in
  StronglySorted server_order (tools toolset) ∧
  ∀ server_name cfg client listed,
    extract_mcp_servers data !! server_name = Some (JObj cfg) →
    connects w start_path server_name cfg client listed →
    filter (λ t, server_of t = server_name) (tools toolset)
    = map (make_tool server_name cfg) listed.
Proof.
  intros Hf Hl toolset. unfold toolset.
  destruct (toolset_of_servers _ _ Hf Hl) as [-> _]. split.
  - apply tools_of_sorted, sorted_items_strongly_sorted.
  - intros server_name cfg client listed Hs Hc.
    destruct (sorted_items_split _ _ _ Hs) as (before & after & -> & Hb & Ha).
    rewrite flat_map_app, flat_map_cons_eq, !filter_app.
    rewrite !tools_of_other_servers by done.
    rewrite (contribution_connects _ _ _ _ _ _ Hc). simpl.
    rewrite app_nil_r. apply filter_all, Forall_forall.
    by intros t (mcp_tool & -> & _)%list_elem_of_fmap.
Qed.

(** X15.  A server whose definition is no mapping is never connected to:
    nothing is opened for it, and the one thing it leaves in the toolset
    is the error that says so, among the errors of the other servers and
    with all their tools. *)
Theorem non_object_definition_is_reported (config_path : path) (data : json)
    (server_name : string) (cfg_obj : json) :
  find_mcp_config_path (path_exists w) start_path = Some config_path →
  load_config w config_path = Ok data →
  extract_mcp_servers data !! server_name = Some cfg_obj →
  is_dict cfg_obj = false →
  let toolset := (open_mcp_toolset w start_path).1.1 in
  (∃ before after,
     sorted_items (extract_mcp_servers data)
     = before ++ (server_name, cfg_obj) :: after ∧
     errors toolset
     = errors_of before
       ++ ["MCP server '" +:+ server_name +:+ "' config must be an object."]
       ++ errors_of after ∧
     tools toolset = tools_of before ++ tools_of after) ∧
  ∀ r, r ∈ opened w start_path → resource_server r ≠ server_name.
Proof.
  intros Hf Hl Hs Hd toolset. unfold toolset.
  destruct (toolset_of_servers _ _ Hf Hl) as [-> ->];
    [|intros He; by rewrite He in Hs].
  split.
  - destruct (sorted_items_split _ _ _ Hs) as (before & after & Heq & _).
    exists before, after. split; [done|].
    rewrite Heq, !flat_map_app, !flat_map_cons_eq.
    by rewrite (contribution_not_object _ _ _ _ Hd).
  - intros r. unfold opened. rewrite Hf, Hl.
    rewrite list_elem_of_In, in_flat_map.
    intros ([k v] & Hkv%list_elem_of_In & Hr%list_elem_of_In) Heq.
    apply opened_by_server in Hr as Hk. simpl in Hk.
    apply elem_of_sorted_items in Hkv.
    assert (v = cfg_obj) by congruence. subst v.
    unfold opened_by in Hr. simpl in Hr.
    destruct cfg_obj; try done; by inversion Hr.
Qed.

(** X16.  A pass over configured servers reports no error exactly when
    every configured server is defined by a mapping and its connection,
    handshake and discovery all go through. *)
Theorem errors_empty_iff_all_connect (config_path : path) (data : json) :
  find_mcp_config_path (path_exists w) start_path = Some config_path →
  load_config w config_path = Ok data →
  extract_mcp_servers data ≠ ∅ →
  errors (open_mcp_toolset w start_path).1.1 = [] ↔
  ∀ server_name cfg_obj,
    extract_mcp_servers data !! server_name = Some cfg_obj →
    ∃ cfg client listed,
      cfg_obj = JObj cfg ∧ connects w start_path server_name cfg client listed.
Proof.
  intros Hf Hl Hne. destruct (toolset_of_servers _ _ Hf Hl) as [_ He].
  rewrite (He Hne). clear He.
  rewrite flat_map_nil_iff, Forall_forall. split.
  - intros Hall server_name cfg_obj Hs%elem_of_sorted_items.
    specialize (Hall _ Hs).
    destruct cfg_obj as [| | | | | |cfg];
      try (by rewrite contribution_not_object in Hall).
    destruct (connects_or_fails w start_path server_name cfg)
      as [(client & listed & Hc)|[e Hfail]]; [eauto|].
    destruct (contribution_fails _ _ _ _ _ Hfail) as [_ Herr].
    by rewrite Herr in Hall.
  - intros Hall [server_name cfg_obj] Hs%elem_of_sorted_items.
    destruct (Hall _ _ Hs) as (cfg & client & listed & -> & Hc).
    by rewrite (contribution_connects _ _ _ _ _ _ Hc).
Qed.

End PassMore.

Lemma tools_follow_server_order_witness :
  let toolset :=
    (@open_mcp_toolset examples_builtins colliding_world ["project"]).1.1 in
  StronglySorted server_order (tools toolset) ∧
  filter (λ t, server_of t = "a__b") (tools toolset)
  = [make_tool "a__b" stdio_cfg (fake_tool "c")].
Proof.
  destruct (@tools_follow_server_order examples_builtins colliding_world
              ["project"] ["project"; ".mcp.json"] colliding_config
              eq_refl eq_refl) as [Hsorted Hfilter].
  split; [exact Hsorted|].
  apply (Hfilter "a__b" stdio_cfg
           (stdio_client "npx" ["-y"; "mcp-remote"; "https://example.com"]
                         None "/project")
           [fake_tool "c"]); [reflexivity|by constructor].
Defined.

Lemma non_object_definition_is_reported_witness :
  let toolset :=
    (@open_mcp_toolset examples_builtins malformed_world ["project"]).1.1 in
  errors toolset = ["MCP server 'typo' config must be an object."] ∧
  ∀ r, r ∈ @opened examples_builtins malformed_world ["project"] →
       resource_server r ≠ "typo".
Proof.
  split; [reflexivity|].
  apply (@non_object_definition_is_reported examples_builtins malformed_world
           ["project"] ["project"; ".mcp.json"] malformed_config
           "typo" (JStr "npx")); reflexivity.
Defined.

Lemma errors_empty_iff_all_connect_witness :
  let toolset :=
    (@open_mcp_toolset examples_builtins test_world ["project"]).1.1 in
  errors toolset = [] ∧
  ∀ server_name cfg_obj,
    extract_mcp_servers test_config !! server_name = Some cfg_obj →
    ∃ cfg client listed,
      cfg_obj = JObj cfg ∧
      @connects examples_builtins test_world ["project"]
        server_name cfg client listed.
Proof.
  split; [reflexivity|].
  apply (@errors_empty_iff_all_connect examples_builtins test_world
           ["project"] ["project"; ".mcp.json"] test_config eq_refl eq_refl).
  - intros Hempty. apply (f_equal (lookup "tavily")) in Hempty.
    discriminate Hempty.
  - reflexivity.
Defined.

(** ** More on what is opened and released *)

Section ReleaseMore.

Context `{!Builtins}.
Variables (w : World) (start_path : path).

(** X17.  Nothing is opened but for a configured server whose definition
    selects a transport, and only once entering that transport has
    succeeded: a session is never open without the transport of its
    server. *)
Theorem opened_only_after_selection (r : resource) :
  r ∈ opened w start_path →
  ∃ config_path data cfg client,
    find_mcp_config_path (path_exists w) start_path = Some config_path ∧
    load_config w config_path = Ok data ∧
    extract_mcp_servers data !! resource_server r = Some (JObj cfg) ∧
    select_transport start_path cfg = Ok client ∧
    open_transport (server w (resource_server r)) client = Ok tt ∧
    Transport (resource_server r) client ∈ opened w start_path ∧
    (r = Transport (resource_server r) client ∨
     r = Session (resource_server r) ∧
     open_session (server w (resource_server r)) = Ok tt).
Proof.
  unfold opened.
  destruct (find_mcp_config_path _ _) as [config_path|] eqn:Hf;
    [|intros Hin; by inversion Hin].
  destruct (load_config w config_path) as [data|e] eqn:Hl;
    [|intros Hin; by inversion Hin].
  intros Hr. exists config_path, data.
  pose proof Hr as Hr'.
  apply list_elem_of_In, in_flat_map in Hr'
    as ([server_name cfg_obj] & Hkv & Hin%list_elem_of_In).
  assert (Hsub : ∀ r', r' ∈ opened_by w start_path (server_name, cfg_obj) →
            r' ∈ flat_map (opened_by w start_path)
                   (sorted_items (extract_mcp_servers data))).
  { intros r' Hr''. apply list_elem_of_In, in_flat_map.
    exists (server_name, cfg_obj). split; [done|by apply list_elem_of_In]. }
  apply list_elem_of_In, elem_of_sorted_items in Hkv.
  rewrite (opened_by_server _ _ _ _ Hin). simpl.
  unfold opened_by in Hin, Hsub. simpl in Hin, Hsub.
  destruct cfg_obj as [| | | | | |cfg]; try by inversion Hin.
  destruct (select_transport start_path cfg) as [client|e] eqn:Hs;
    [|by inversion Hin].
  destruct (open_transport (server w server_name) client) as [[]|e] eqn:Ht;
    [|by inversion Hin].
  exists cfg, client. repeat (split; [done|]).
  split; [apply Hsub, list_elem_of_here|].
  destruct (open_session (server w server_name)) as [[]|e] eqn:Hn.
  - apply elem_of_cons in Hin as [->|Hin]; [by left|].
    apply list_elem_of_singleton in Hin as ->. by right.
  - apply list_elem_of_singleton in Hin as ->. by left.
Qed.

(** X18.  Over a whole [async with], the transport and the session of a
    server are acquired after everything of the servers before it and
    before everything of the servers after it, and they are released the
    other way round: the session before its transport, both after
    everything of the later servers and before everything of the earlier
    ones. *)
Theorem session_released_before_transport {A} (body : McpToolset → result A)
    (config_path : path) (data : json) (server_name : string)
    (cfg : gmap string json) (client : transport) :
  find_mcp_config_path (path_exists w) start_path = Some config_path →
  load_config w config_path = Ok data →
  extract_mcp_servers data !! server_name = Some (JObj cfg) →
  select_transport start_path cfg = Ok client →
  open_transport (server w server_name) client = Ok tt →
  open_session (server w server_name) = Ok tt →
  ∃ before after,
    sorted_items (extract_mcp_servers data)
    = before ++ (server_name, JObj cfg) :: after ∧
    (with_mcp_toolset w start_path body).2
    = map Acquire (flat_map (opened_by w start_path) before)
      ++ [Acquire (Transport server_name client); Acquire (Session server_name)]
      ++ map Acquire (flat_map (opened_by w start_path) after)
      ++ map Release (rev (flat_map (opened_by w start_path) after))
      ++ [Release (Session server_name); Release (Transport server_name client)]
      ++ map Release (rev (flat_map (opened_by w start_path) before)).
Proof.
  intros Hf Hl Hs Hsel Ht Hn.
  destruct (sorted_items_split _ _ _ Hs) as (before & after & Heq & _).
  exists before, after. split; [done|].
  unfold with_mcp_toolset.
  destruct (open_mcp_toolset_resources w start_path) as [Hstack Htrace].
  destruct (open_mcp_toolset w start_path) as [[toolset stack] trace].
  simpl in *. subst stack trace.
  unfold opened, aclose. rewrite Hf, Hl, Heq.
  rewrite flat_map_app, flat_map_cons_eq.
  assert (Hkv : opened_by w start_path (server_name, JObj cfg)
                = [Transport server_name client; Session server_name]).
  { unfold opened_by. simpl. by rewrite Hsel, Ht, Hn. }
  rewrite Hkv, !rev_app_distr, !map_app. simpl.
  by rewrite <- !app_assoc.
Qed.

End ReleaseMore.

Lemma opened_only_after_selection_witness :
  Session "tavily" ∈ @opened examples_builtins one_broken_world ["project"] ∧
  ∃ client,
    Transport "tavily" client
      ∈ @opened examples_builtins one_broken_world ["project"].
Proof.
  assert (Hin : Session "tavily"
                  ∈ @opened examples_builtins one_broken_world ["project"]).
  { vm_compute. apply list_elem_of_further, list_elem_of_here. }
  split; [exact Hin|].
  destruct (@opened_only_after_selection examples_builtins one_broken_world
              ["project"] _ Hin)
    as (_ & _ & _ & client & _ & _ & _ & _ & _ & Ht & _).
  by exists client.
Defined.

Lemma session_released_before_transport_witness :
  (@with_mcp_toolset examples_builtins unit test_world ["project"]
     (λ _, Ok tt)).2
  = [ Acquire (Transport "tavily"
        (stdio_client "npx" ["-y"; "mcp-remote"; "https://example.com"]
                      None "/project"));
      Acquire (Session "tavily");
      Release (Session "tavily");
      Release (Transport "tavily"
        (stdio_client "npx" ["-y"; "mcp-remote"; "https://example.com"]
                      None "/project")) ].
Proof.
  destruct (@session_released_before_transport examples_builtins test_world
              ["project"] unit (λ _, Ok tt) ["project"; ".mcp.json"]
              test_config "tavily" stdio_cfg
              (stdio_client "npx" ["-y"; "mcp-remote"; "https://example.com"]
                            None "/project")
              eq_refl eq_refl eq_refl eq_refl eq_refl eq_refl)
    as (before & after & _ & _).
  reflexivity.
Defined.

(** ** More on the tools and their invocation *)

Section InvokeMore.

Context `{!Builtins}.
Variable w : World.

(** X19.  An invocation returns a value only when its session answered
    an outcome without the error flag, and the value is that outcome's
    normalised text; and whatever the arguments and the answer, it sends
    at most one request: nothing is retried. *)
Theorem _call_mcp_tool_value (defaults : Coroutine) (named : gmap string json) :
  (∀ text, (_call_mcp_tool w defaults named).1 = Ok text →
     ∃ result,
       named !! "_session" = None ∧
       call_tool (server w (_session defaults))
         (default (JStr (_mcp_tool_name defaults)) (named !! "_mcp_tool_name"))
         (delete "_session" (delete "_mcp_tool_name" named)) = Ok result ∧
       isError result = false ∧
       text = _format_call_tool_result result) ∧
  length (_call_mcp_tool w defaults named).2 ≤ 1.
Proof.
  unfold _call_mcp_tool.
  destruct (named !! "_session") as [v|]; simpl; [split; [done|lia]|].
  destruct (call_tool _ _ _) as [result|e] eqn:Hcall; [|split; [done|simpl; lia]].
  destruct (isError result) eqn:He; simpl; (split; [|lia]); [done|].
  intros text [= <-]. eauto.
Qed.

(** X20.  An invocation fails in one of three ways only: the caller
    overrode [_session] and the value has no [call_tool]; the session
    raised, and its exception is passed on unchanged; or the outcome
    carries the error flag, and then the failure is a [ToolException]
    whose message is never empty. *)
Theorem _call_mcp_tool_failure (defaults : Coroutine)
    (named : gmap string json) (e : exn) :
  (_call_mcp_tool w defaults named).1 = Raise e →
  (∃ v, named !! "_session" = Some v ∧ exn_type e = "AttributeError") ∨
  (named !! "_session" = None ∧
   call_tool (server w (_session defaults))
     (default (JStr (_mcp_tool_name defaults)) (named !! "_mcp_tool_name"))
     (delete "_session" (delete "_mcp_tool_name" named)) = Raise e) ∨
  (∃ result,
     named !! "_session" = None ∧
     call_tool (server w (_session defaults))
       (default (JStr (_mcp_tool_name defaults)) (named !! "_mcp_tool_name"))
       (delete "_session" (delete "_mcp_tool_name" named)) = Ok result ∧
     isError result = true ∧
     exn_type e = "ToolException" ∧ exn_msg e ≠ "" ∧
     (_format_call_tool_result result ≠ "" →
      exn_msg e = _format_call_tool_result result)).
Proof.
  unfold _call_mcp_tool.
  destruct (named !! "_session") as [v|]; simpl.
  { intros [= <-]. left. eauto. }
  destruct (call_tool _ _ _) as [result|e'] eqn:Hcall; simpl.
  - destruct (isError result) eqn:He; simpl; [|done].
    intros [= <-]. right. right. exists result. repeat (split; [done|]).
    unfold str_or. destruct (_format_call_tool_result result); simpl; by split.
  - intros [= <-]. right. left. done.
Qed.

Variable start_path : path.



End InvokeMore.

Lemma _call_mcp_tool_failure_witness :
  (@_call_mcp_tool examples_builtins one_broken_world
     {| _session := "broken"; _mcp_tool_name := "search" |}
     {[ "q" := JStr "hello" ]}).1
  = Raise (Exn "ConnectionError" "refused") ∧
  call_tool (server one_broken_world "broken") (JStr "search")
    {[ "q" := JStr "hello" ]}
  = Raise (Exn "ConnectionError" "refused").
Proof.
  assert (Hrun :
    (@_call_mcp_tool examples_builtins one_broken_world
       {| _session := "broken"; _mcp_tool_name := "search" |}
       {[ "q" := JStr "hello" ]}).1
    = Raise (Exn "ConnectionError" "refused")) by reflexivity.
  split; [exact Hrun|].
  destruct (@_call_mcp_tool_failure examples_builtins one_broken_world
              {| _session := "broken"; _mcp_tool_name := "search" |}
              {[ "q" := JStr "hello" ]} (Exn "ConnectionError" "refused")
              Hrun) as [(v & Hv & _)|[[_ Hcall]|(r & _ & Hcall & _)]].
  - discriminate Hv.
  - exact Hcall.
  - discriminate Hcall.
Defined.



(** * The collection hook of the integration tests *)

Section Collection.

Variable h : Host.

(** The marker of a provider is added under one condition only. *)
Lemma elem_of_guarded (m m' : marker) (named ready : bool) :
  m ∈ (if named && negb ready then [m'] else []) →
  m = m' ∧ named = true ∧ ready = false.
Proof.
  destruct named, ready; simpl; intros Hm; inversion Hm; subst; try done.
  all: by match goal with H : _ ∈ [] |- _ => inversion H end.
Qed.

Lemma elem_of_item_markers (nodeid : string) (m : marker) :
  m ∈ item_markers h nodeid →
  m = skip_daytona ∧ daytona_ready h = false ∨
  m = skip_runloop ∧ runloop_ready h = false ∨
  m = skip_modal ∧ modal_ready h = false ∨
  m = skip_langsmith ∧ langsmith_ready h = false.
Proof.
  unfold item_markers.
  destruct (contains "test_sandbox_operations.py" nodeid && negb (daytona_ready h))
    eqn:Hops.
  - intros Hm%list_elem_of_singleton.
    apply andb_true_iff in Hops as [_ Hd%negb_true_iff]. auto.
  - rewrite !elem_of_app.
    intros [Hm|[Hm|[Hm|Hm]]]; apply elem_of_guarded in Hm as (? & _ & ?);
      auto.
Qed.

(** X23.  The hook marks a test as skipped only for a provider the host
    is not ready for; on a host ready for all four, no test is
    skipped. *)
Theorem skips_only_unready_providers (items : list string) :
  (∀ nodeid markers m,
     (nodeid, markers) ∈ pytest_collection_modifyitems h items →
     m ∈ markers →
     m = skip_daytona ∧ daytona_ready h = false ∨
     m = skip_runloop ∧ runloop_ready h = false ∨
     m = skip_modal ∧ modal_ready h = false ∨
     m = skip_langsmith ∧ langsmith_ready h = false) ∧
  (daytona_ready h = true → runloop_ready h = true →
   modal_ready h = true → langsmith_ready h = true →
   ∀ nodeid markers,
     (nodeid, markers) ∈ pytest_collection_modifyitems h items →
     markers = []).
Proof.
  unfold pytest_collection_modifyitems. split.
  - intros nodeid markers m (nodeid' & [= -> ->] & _)%list_elem_of_fmap.
    apply elem_of_item_markers.
  - intros Hd Hr Hm Hl nodeid markers
      (nodeid' & [= -> ->] & _)%list_elem_of_fmap.
    unfold item_markers. rewrite Hd, Hr, Hm, Hl.
    by rewrite !andb_false_r.
Qed.

(** X24.  A test gets the Runloop skip exactly when its node id names
    [TestRunLoopIntegration], the host is not ready for Runloop, and the
    test is not one of the sandbox operations already skipped for
    Daytona. *)
Theorem runloop_skip_iff (nodeid : string) :
  skip_runloop ∈ item_markers h nodeid ↔
  contains "TestRunLoopIntegration" nodeid = true ∧
  runloop_ready h = false ∧
  ¬ (contains "test_sandbox_operations.py" nodeid = true ∧
     daytona_ready h = false).
Proof.
  unfold item_markers.
  destruct (contains "test_sandbox_operations.py" nodeid && negb (daytona_ready h))
    eqn:Hfirst.
  - apply andb_true_iff in Hfirst as [Hops Hd%negb_true_iff]. split.
    + intros Hm%list_elem_of_singleton. discriminate Hm.
    + intros (_ & _ & Hn). exfalso. by apply Hn.
  - rewrite !elem_of_app. split.
    + intros [Hm|[Hm|[Hm|Hm]]]; apply elem_of_guarded in Hm as (Heq & Hn & Hr);
        try discriminate Heq.
      repeat (split; [done|]). intros [Ho Hd]. by rewrite Ho, Hd in Hfirst.
    + intros (Hn & Hr & _). right. left. rewrite Hn, Hr. apply list_elem_of_here.
Qed.

End Collection.
